(** * NanoPredictBot: the conversational core, embedded and verified

    The development follows the sources of the bot:

    - [JS]: the part of the JavaScript runtime the sources rely on
      (strings as sequences of UTF-16 code units, Numbers as IEEE 754
      binary64 values, [parseFloat], [parseInt], [JSON.parse], ...);
    - [ParameterUtils]: [utils/parameterUtils.js];
    - [PredictionService]: [ml/predictionService.js], in the variant
      that spawns the external predictor and waits for it under a
      timer, as a state machine over the events of the child process;
    - [Experiment]: the table of experiments;
    - [Bot]: [bot/handlers/predictionHandler.js],
      [bot/handlers/experimentHandler.js] and the message listener of
      [bot/index.js], as functions in a state and exception monad over
      the two session maps, the table and the calls made to the
      Telegram client;
    - [Scenarios] and [Vocabulary]: the vocabulary of the statements
      and the sample situations the properties are tried on;
    - [SimulatedPredictionService]: [ml/predictionService.js], in the
      variant that computes the forecast from a formula;
    - [ChartUtils]: the correlation functions of [utils/chartUtils.js].

    The properties come after the definitions, one module of facts per
    component. *)

From Stdlib Require Import ZArith NArith Lia Bool List String Ascii Floats.
From stdpp Require Import base option list gmap.
Import ListNotations.

Local Open Scope Z_scope.

(** ** The JavaScript runtime *)

Module JS.

(** A string value is a finite sequence of UTF-16 code units. *)
Abbreviation jsstring := (list N).

(** An ASCII literal as a string value. *)
Definition js (s : string) : jsstring :=
  map N_of_ascii (list_ascii_of_string s).

(** The same, with each apostrophe of the literal standing for a double
    quote (for JSON texts). *)
Definition jsq (s : string) : jsstring :=
  map (fun c => if (c =? 39)%N then 34%N else c) (js s).

(** A Number is an IEEE 754 binary64 value: Rocq's primitive [float]. *)
Abbreviation Number := float.

Definition isNaN (x : Number) : bool := PrimFloat.is_nan x.

(** *** Character classes *)

(** WhiteSpace and LineTerminator code units (what [trim], [\s] and the
    numeric parsers skip). *)
Definition isWhiteSpace (c : N) : bool :=
  (bool_decide (c ∈ [9; 10; 11; 12; 13; 32; 160; 5760; 8232; 8233; 8239;
                     8287; 12288; 65279]%N)
   || ((8192 <=? c) && (c <=? 8202)))%N.

Definition isDigit (c : N) : bool := ((48 <=? c) && (c <=? 57))%N.

Definition digitValue (c : N) : N := (c - 48)%N.

(** Value of a hexadecimal digit, when [c] is one. *)
Definition hexValue (c : N) : option N :=
  if isDigit c then Some (c - 48)%N
  else if ((97 <=? c) && (c <=? 102))%N then Some (c - 87)%N
  else if ((65 <=? c) && (c <=? 70))%N then Some (c - 55)%N
  else None.

(** [span p s]: the longest prefix of [s] whose units satisfy [p], and
    the rest. *)
Fixpoint span (p : N -> bool) (s : jsstring) : jsstring * jsstring :=
  match s with
  | c :: r => if p c then let '(a, b) := span p r in (c :: a, b) else ([], s)
  | [] => ([], [])
  end.

Fixpoint dropWhile (p : N -> bool) (s : jsstring) : jsstring :=
  match s with
  | c :: r => if p c then dropWhile p r else s
  | [] => []
  end.

(** *** String.prototype methods used by the sources *)

Definition trimStart (s : jsstring) : jsstring := dropWhile isWhiteSpace s.

Definition trimEnd (s : jsstring) : jsstring :=
  rev (dropWhile isWhiteSpace (rev s)).

Definition trim (s : jsstring) : jsstring := trimEnd (trimStart s).

Fixpoint startsWith (p s : jsstring) : bool :=
  match p, s with
  | [], _ => true
  | a :: p', b :: s' => (a =? b)%N && startsWith p' s'
  | _ :: _, [] => false
  end.

(** Lower-casing of one code unit. The sources compare lower-cased text
    with ["/cancel"] and with the Cyrillic ["да"] only. The table covers
    the capitals of Basic Latin, Latin-1, Greek and Cyrillic; each letter
    of the two tokens is the lower case of its own capital and of no
    other character of Unicode, so both comparisons have the value the
    full mapping gives. *)
Definition lowerUnit (c : N) : N :=
  if ((65 <=? c) && (c <=? 90))%N then (c + 32)%N
  else if ((192 <=? c) && (c <=? 222) && negb (c =? 215))%N then (c + 32)%N
  else if ((913 <=? c) && (c <=? 939) && negb (c =? 930))%N then (c + 32)%N
  else if ((1024 <=? c) && (c <=? 1039))%N then (c + 80)%N
  else if ((1040 <=? c) && (c <=? 1071))%N then (c + 32)%N
  else c.

Definition toLowerCase (s : jsstring) : jsstring := map lowerUnit s.

(** [s.split(/\s+/)]: the pieces of [s] between maximal runs of white
    space. [cur] is the piece being read (reversed), [inSep] tells that
    the previous unit was white space. The empty string gives one empty
    piece; a leading or trailing run gives an empty first or last
    piece. *)
Fixpoint splitWs (cur : jsstring) (inSep : bool) (s : jsstring)
  : list jsstring :=
  match s with
  | [] => [rev cur]
  | c :: r =>
      if isWhiteSpace c then
        if inSep then splitWs cur true r
        else rev cur :: splitWs [] true r
      else splitWs (c :: cur) false r
  end.

Definition splitWhitespace (s : jsstring) : list jsstring :=
  splitWs [] false s.

(** *** Numbers from decimal text *)

Definition digitsValue (ds : jsstring) : N :=
  fold_left (fun acc d => (10 * acc + digitValue d)%N) ds 0%N.

(** The Number nearest to [(-1)^neg * m * 10^e] (ties to even), as
    [StringToNumber] and [JSON.parse] round a decimal literal. *)
Definition decimalToNumber (neg : bool) (m : N) (e : Z) : Number :=
  match m with
  | N0 => if neg then neg_zero else zero
  | Npos p =>
      if 0 <=? e then
        SF2Prim (binary_normalize prec emax
                   (cond_Zopp neg (Z.pos p * 10 ^ e)) 0 neg)
      else
        SF2Prim (SFdiv prec emax (S754_finite neg p 0)
                   (S754_finite false (Z.to_pos (10 ^ (- e))) 0))
  end.

(** An optional sign: whether it is ["-"], and the text after it. *)
Definition readSign (s : jsstring) : bool * jsstring :=
  match s with
  | 45%N :: r => (true, r)
  | 43%N :: r => (false, r)
  | _ => (false, s)
  end.

(** The value of an exponent part [e[+-]digits] at the head of [s]; 0
    when [s] does not start with a complete exponent part. *)
Definition readExponent (s : jsstring) : Z :=
  match s with
  | c :: r =>
      if ((c =? 101) || (c =? 69))%N then
        let '(neg, r') := readSign r in
        let '(ds, _) := span isDigit r' in
        match ds with
        | [] => 0
        | _ => cond_Zopp neg (Z.of_N (digitsValue ds))
        end
      else 0
  | [] => 0
  end.

(** [parseFloat(s)]: leading white space is skipped, the longest prefix
    that is a [StrDecimalLiteral] is converted, [NaN] when there is
    none. *)
Definition parseFloat (s : jsstring) : Number :=
  let '(neg, s1) := readSign (trimStart s) in
  if startsWith (js "Infinity") s1 then
    (if neg then neg_infinity else infinity)
  else
    let '(ip, s2) := span isDigit s1 in
    let '(fp, s3) :=
      match s2 with
      | 46%N :: r => let '(fp, r') := span isDigit r in
                     match ip, fp with
                     | [], [] => ([], s2)
                     | _, _ => (fp, r')
                     end
      | _ => ([], s2)
      end in
    match ip ++ fp with
    | [] => nan
    | ds => decimalToNumber neg (digitsValue ds)
              (readExponent s3 - Z.of_nat (length fp))
    end.

(** [parseInt(s)], called without a radix: white space and a sign are
    skipped, a [0x]/[0X] prefix selects radix 16 (radix 10 otherwise),
    and the longest prefix of digits of the radix is read. The result is
    the Number of that integer, and [NaN] when the prefix is empty. An
    integral Number is kept here as the integer it stands for ([None] is
    [NaN]): Number conversion is monotone and exact below 2^53, so the
    comparisons of the sources with 0, 3, 7 and 11 are those of the
    integers, and [-0] behaves as [0] everywhere it is used. *)
Abbreviation IntNumber := (option Z).

Definition isRadixDigit (radix : N) (c : N) : bool :=
  match hexValue c with
  | Some d => (d <? radix)%N
  | None => false
  end.

Definition radixValue (radix : N) (ds : jsstring) : N :=
  fold_left (fun acc d => (radix * acc + default 0 (hexValue d))%N) ds 0%N.

Definition parseInt (s : jsstring) : IntNumber :=
  let '(neg, s1) := readSign (trimStart s) in
  let '(radix, s2) :=
    match s1 with
    | 48%N :: x :: r =>
        if ((x =? 120) || (x =? 88))%N then (16%N, r) else (10%N, s1)
    | _ => (10%N, s1)
    end in
  match fst (span (isRadixDigit radix) s2) with
  | [] => None
  | ds => Some (cond_Zopp neg (Z.of_N (radixValue radix ds)))
  end.

(** *** JSON.parse *)

#[warnings="-register-all"]
Inductive JSValue :=
| JNull
| JBool (b : bool)
| JNum (x : Number)
| JStr (s : jsstring)
| JArr (items : list JSValue)
| JObj (props : list (jsstring * JSValue)).

Inductive Token :=
| TLBrace | TRBrace | TLBracket | TRBracket | TColon | TComma
| TString (s : jsstring)
| TNumber (x : Number)
| TTrue | TFalse | TNull.

(** A JSON number, the whole of [w]: an optional minus, an integer part
    without a superfluous leading zero, an optional fraction with at least
    one digit, an optional exponent with at least one digit. *)
Definition jsonNumber (w : jsstring) : option Number :=
  let '(neg, s1) := match w with 45%N :: r => (true, r) | _ => (false, w) end in
  let '(ip, s2) := span isDigit s1 in
  let intOk := match ip with
               | [] => false
               | [_] => true
               | d :: _ => negb (d =? 48)%N
               end in
  let '(fp, fracOk, s3) :=
    match s2 with
    | 46%N :: r => let '(fp, r') := span isDigit r in
                   (fp, negb (bool_decide (fp = [])), r')
    | _ => ([], true, s2)
    end in
  let ex :=
    match s3 with
    | [] => Some 0
    | c :: r =>
        if ((c =? 101) || (c =? 69))%N then
          let '(eneg, r') := readSign r in
          match span isDigit r' with
          | ((_ :: _) as ds, []) => Some (cond_Zopp eneg (Z.of_N (digitsValue ds)))
          | _ => None
          end
        else None
    end in
  if intOk && fracOk then
    e ← ex;
    Some (decimalToNumber neg (digitsValue (ip ++ fp)) (e - Z.of_nat (length fp)))
  else None.

(** The token of a run of letters, digits, signs and dots. *)
Definition wordToken (w : jsstring) : option Token :=
  if bool_decide (w = js "true") then Some TTrue
  else if bool_decide (w = js "false") then Some TFalse
  else if bool_decide (w = js "null") then Some TNull
  else TNumber <$> jsonNumber w.

Definition isWordUnit (c : N) : bool :=
  (isDigit c || ((97 <=? c) && (c <=? 122)) || ((65 <=? c) && (c <=? 90))
   || (c =? 43) || (c =? 45) || (c =? 46))%N.

Definition isJsonSpace (c : N) : bool :=
  ((c =? 32) || (c =? 9) || (c =? 10) || (c =? 13))%N.

(** Where the lexer is inside a string literal. *)
Inductive StringMode :=
| SPlain
| SEscape
| SUnicode (seen : nat) (value : N).

Inductive LexState :=
| LIdle
| LWord (acc : jsstring)
| LString (acc : jsstring) (mode : StringMode).

(** One code unit read outside a string or a word. *)
Definition lexIdle (c : N) (out : list Token) : option (LexState * list Token) :=
  if isJsonSpace c then Some (LIdle, out)
  else if (c =? 123)%N then Some (LIdle, TLBrace :: out)
  else if (c =? 125)%N then Some (LIdle, TRBrace :: out)
  else if (c =? 91)%N then Some (LIdle, TLBracket :: out)
  else if (c =? 93)%N then Some (LIdle, TRBracket :: out)
  else if (c =? 58)%N then Some (LIdle, TColon :: out)
  else if (c =? 44)%N then Some (LIdle, TComma :: out)
  else if (c =? 34)%N then Some (LString [] SPlain, out)
  else if isWordUnit c then Some (LWord [c], out)
  else None.

Definition lexEscape (c : N) : option N :=
  if ((c =? 34) || (c =? 92) || (c =? 47))%N then Some c
  else if (c =? 98)%N then Some 8%N
  else if (c =? 102)%N then Some 12%N
  else if (c =? 110)%N then Some 10%N
  else if (c =? 114)%N then Some 13%N
  else if (c =? 116)%N then Some 9%N
  else None.

(** The lexer: [acc] and [out] are kept in reverse. *)
Fixpoint lex (st : LexState) (out : list Token) (s : jsstring)
  : option (list Token) :=
  match s with
  | [] =>
      match st with
      | LIdle => Some (rev out)
      | LWord acc => t ← wordToken (rev acc); Some (rev (t :: out))
      | LString _ _ => None
      end
  | c :: r =>
      match st with
      | LIdle => '(st', out') ← lexIdle c out; lex st' out' r
      | LWord acc =>
          if isWordUnit c then lex (LWord (c :: acc)) out r
          else
            t ← wordToken (rev acc);
            '(st', out') ← lexIdle c (t :: out);
            lex st' out' r
      | LString acc SPlain =>
          if (c =? 34)%N then lex LIdle (TString (rev acc) :: out) r
          else if (c =? 92)%N then lex (LString acc SEscape) out r
          else if (c <? 32)%N then None
          else lex (LString (c :: acc) SPlain) out r
      | LString acc SEscape =>
          if (c =? 117)%N then lex (LString acc (SUnicode 0 0)) out r
          else e ← lexEscape c; lex (LString (e :: acc) SPlain) out r
      | LString acc (SUnicode seen v) =>
          d ← hexValue c;
          let v' := (16 * v + d)%N in
          if bool_decide (seen = 3%nat) then lex (LString (v' :: acc) SPlain) out r
          else lex (LString acc (SUnicode (S seen) v')) out r
      end
  end.

(** The containers being built around the value that is read. *)
Inductive Frame :=
| FArray (items : list JSValue)
| FObject (props : list (jsstring * JSValue)) (key : jsstring).

Inductive ParseState :=
| PValue (stack : list Frame)
| PArrayStart (stack : list Frame)
| PArrayNext (stack : list Frame) (items : list JSValue)
| PObjectStart (stack : list Frame)
| PObjectNext (stack : list Frame) (props : list (jsstring * JSValue))
| PKey (stack : list Frame) (props : list (jsstring * JSValue))
| PColon (stack : list Frame) (props : list (jsstring * JSValue)) (key : jsstring)
| PDone (v : JSValue).

(** A value is complete: it goes into the innermost open container. *)
Definition complete (stack : list Frame) (v : JSValue) : ParseState :=
  match stack with
  | [] => PDone v
  | FArray items :: stack' => PArrayNext stack' (items ++ [v])
  | FObject props key :: stack' => PObjectNext stack' (props ++ [(key, v)])
  end.

(** A token where a value starts. *)
Definition startValue (stack : list Frame) (t : Token) : option ParseState :=
  match t with
  | TLBracket => Some (PArrayStart stack)
  | TLBrace => Some (PObjectStart stack)
  | TString s => Some (complete stack (JStr s))
  | TNumber x => Some (complete stack (JNum x))
  | TTrue => Some (complete stack (JBool true))
  | TFalse => Some (complete stack (JBool false))
  | TNull => Some (complete stack JNull)
  | _ => None
  end.

Definition parseStep (st : ParseState) (t : Token) : option ParseState :=
  match st, t with
  | PValue stack, _ => startValue stack t
  | PArrayStart stack, TRBracket => Some (complete stack (JArr []))
  | PArrayStart stack, _ => startValue (FArray [] :: stack) t
  | PArrayNext stack items, TComma => Some (PValue (FArray items :: stack))
  | PArrayNext stack items, TRBracket => Some (complete stack (JArr items))
  | PObjectStart stack, TRBrace => Some (complete stack (JObj []))
  | PObjectStart stack, TString k => Some (PColon stack [] k)
  | PObjectNext stack props, TComma => Some (PKey stack props)
  | PObjectNext stack props, TRBrace => Some (complete stack (JObj props))
  | PKey stack props, TString k => Some (PColon stack props k)
  | PColon stack props k, TColon => Some (PValue (FObject props k :: stack))
  | _, _ => None
  end.

Fixpoint parseTokens (st : ParseState) (ts : list Token) : option JSValue :=
  match ts with
  | [] => match st with PDone v => Some v | _ => None end
  | t :: ts' => st' ← parseStep st t; parseTokens st' ts'
  end.

(** [JSON.parse(text)]; [None] when it throws a [SyntaxError]. *)
Definition JSON_parse (text : jsstring) : option JSValue :=
  ts ← lex LIdle [] text; parseTokens (PValue []) ts.

(** [v[key]] for a value other than [null] and one of the keys the
    sources read ([error], [size], [pdi], ...): the own property of an
    object (the last one of that name), [undefined] ([None]) on every
    other value. *)
Definition getProperty (v : JSValue) (key : jsstring) : option JSValue :=
  match v with
  | JObj props =>
      snd <$> head (filter (fun kv => bool_decide (fst kv = key)) (rev props))
  | _ => None
  end.

(** [ToBoolean]. *)
Definition truthy (v : option JSValue) : bool :=
  match v with
  | None | Some JNull => false
  | Some (JBool b) => b
  | Some (JNum x) => negb (PrimFloat.eqb x zero || isNaN x)
  | Some (JStr s) => negb (bool_decide (s = []))
  | Some (JArr _) | Some (JObj _) => true
  end.

End JS.

(** ** utils/parameterUtils.js *)

Module ParameterUtils.
Import JS.

(** The messages of [validateParameters], one constructor per text. *)
Inductive ValidationError :=
| ParameterCountError (count : nat)
    (* Неверное количество параметров (count). Ожидается 7 или 8 параметров. *)
| EuConcentrationError
    (* Концентрация Eu должна быть неотрицательным числом. *)
| PhenanthrolineConcentrationError
    (* Концентрация Фенантролина должна быть неотрицательным числом. *)
| LigandConcentrationError
    (* Концентрация Лиганда должна быть неотрицательным числом. *)
| LigandTypeError
    (* Вид лиганда должен быть числом от 0 до 3. *)
| PhBsaError
    (* pH BSA должен быть целым числом от 7 до 11. *)
| AdditionVolumeError
    (* Объем добавления должен быть положительным числом. *)
| AdditionTimeError
    (* Время добавления должно быть положительным числом. *)
| AdditionRateError.
    (* Скорость добавления должна быть положительным числом. *)

(** The object [validateParameters] returns: [{ valid, error }]. *)
Record ValidationResult := {
  valid : bool;
  error : option ValidationError
}.

Definition accepted : ValidationResult := {| valid := true; error := None |}.

Definition rejected (e : ValidationError) : ValidationResult :=
  {| valid := false; error := Some e |}.

(** The object [convertParametersToObject] returns. *)
Record ParameterRecord := {
  euConcentration : Number;
  phenanthrolineConcentration : Number;
  ligandConcentration : Number;
  ligandType : IntNumber;
  phBsa : IntNumber;
  additionVolume : Number;
  additionTime : Number;
  additionRate : Number
}.

(** [paramArray[i]] as the parsers receive it: an index past the end
    reads [undefined], which they convert to the text ["undefined"]. *)
Definition item (paramArray : list jsstring) (i : nat) : jsstring :=
  default (js "undefined") (paramArray !! i).

(** [isNaN(x)], [x < k] and [x > k] on the result of [parseInt]; a
    comparison with [NaN] is false. *)
Definition isNaNInt (x : IntNumber) : bool :=
  match x with None => true | Some _ => false end.

Definition ltInt (x : IntNumber) (k : Z) : bool :=
  match x with None => false | Some z => z <? k end.

Definition gtInt (x : IntNumber) (k : Z) : bool :=
  match x with None => false | Some z => k <? z end.

Definition validateParameters (paramArray : list jsstring) : ValidationResult :=
  if ((length paramArray <? 7) || (8 <? length paramArray))%nat then
    rejected (ParameterCountError (length paramArray))
  else
    let euConcentration := parseFloat (item paramArray 0) in
    let phenanthrolineConcentration := parseFloat (item paramArray 1) in
    let ligandConcentration := parseFloat (item paramArray 2) in
    let ligandType := parseInt (item paramArray 3) in
    let phBsa := parseInt (item paramArray 4) in
    let additionVolume := parseFloat (item paramArray 5) in
    let additionTime := parseFloat (item paramArray 6) in
    let additionRate :=
      if (length paramArray =? 8)%nat then parseFloat (item paramArray 7)
      else (additionVolume / additionTime)%float in
    if isNaN euConcentration || (euConcentration <? 0)%float then
      rejected EuConcentrationError
    else if isNaN phenanthrolineConcentration
            || (phenanthrolineConcentration <? 0)%float then
      rejected PhenanthrolineConcentrationError
    else if isNaN ligandConcentration || (ligandConcentration <? 0)%float then
      rejected LigandConcentrationError
    else if isNaNInt ligandType || ltInt ligandType 0 || gtInt ligandType 3 then
      rejected LigandTypeError
    else if isNaNInt phBsa || ltInt phBsa 7 || gtInt phBsa 11 then
      rejected PhBsaError
    else if isNaN additionVolume || (additionVolume <=? 0)%float then
      rejected AdditionVolumeError
    else if isNaN additionTime || (additionTime <=? 0)%float then
      rejected AdditionTimeError
    else if isNaN additionRate || (additionRate <=? 0)%float then
      rejected AdditionRateError
    else accepted.

Definition convertParametersToObject (paramArray : list jsstring)
  : ParameterRecord :=
  let euConcentration := parseFloat (item paramArray 0) in
  let phenanthrolineConcentration := parseFloat (item paramArray 1) in
  let ligandConcentration := parseFloat (item paramArray 2) in
  let ligandType := parseInt (item paramArray 3) in
  let phBsa := parseInt (item paramArray 4) in
  let additionVolume := parseFloat (item paramArray 5) in
  let additionTime := parseFloat (item paramArray 6) in
  let additionRate :=
    if (length paramArray =? 8)%nat then parseFloat (item paramArray 7)
    else (additionVolume / additionTime)%float in
  {| euConcentration := euConcentration;
     phenanthrolineConcentration := phenanthrolineConcentration;
     ligandConcentration := ligandConcentration;
     ligandType := ligandType;
     phBsa := phBsa;
     additionVolume := additionVolume;
     additionTime := additionTime;
     additionRate := additionRate |}.

End ParameterUtils.

(** ** ml/predictionService.js (the variant that spawns the predictor) *)

Module PredictionService.
Import JS ParameterUtils.

(** What the child process object emits: data on its two pipes, [close]
    with the exit code ([None] is [null], the process was ended by a
    signal), [error]. *)
Inductive ProcessEvent :=
| StdoutData (chunk : jsstring)
| StderrData (chunk : jsstring)
| Close (code : option Z)
| ProcessError (message : jsstring).

(** The behaviour of one spawned predictor: its events in the order they
    occur, each with the time (ms since the spawn) at which it occurs if
    the process is left alone. *)
Abbreviation ProcessRun := (list (N * ProcessEvent)).

(** The errors the promise is rejected with. *)
Inductive PredictionError :=
| PredictionTimeout
    (* new Error('Prediction timeout') *)
| ProcessExit (code : option Z) (errorOutput : jsstring)
    (* new Error(`Python script exited with code ${code}. Error: ${errorOutput}`) *)
| ModelError (error : JSValue)
    (* new Error(result.error) *)
| InvalidResponse
    (* new Error('Invalid prediction response') *)
| SpawnError (message : jsstring).
    (* reject(err) *)

Inductive Settlement :=
| Resolved (result : JSValue)
| Rejected (reason : PredictionError).

Inductive ChildStatus := Running | Exited | Killed.

(** The state of one call of [makeModelPrediction]: the variables of
    its closure, the child process and the promise. *)
Record Call := {
  output : jsstring;
  errorOutput : jsstring;
  timeoutPending : bool;
  child : ChildStatus;
  settled : option (N * Settlement)
}.

Definition timeoutMs : N := 15000.

(** After [spawn] and [setTimeout]. *)
Definition started : Call :=
  {| output := []; errorOutput := []; timeoutPending := true;
     child := Running; settled := None |}.

(** [resolve] and [reject]: the first settlement of a promise stands. *)
Definition settle (now : N) (s : Settlement) (c : Call) : Call :=
  match settled c with
  | Some _ => c
  | None =>
      {| output := output c; errorOutput := errorOutput c;
         timeoutPending := timeoutPending c; child := child c;
         settled := Some (now, s) |}
  end.

Definition clearTimeout (c : Call) : Call :=
  {| output := output c; errorOutput := errorOutput c;
     timeoutPending := false; child := child c; settled := settled c |}.

Definition setChild (st : ChildStatus) (c : Call) : Call :=
  {| output := output c; errorOutput := errorOutput c;
     timeoutPending := timeoutPending c; child := st; settled := settled c |}.

(** The body of the [close] listener once the exit code is 0: the
    [try] block and its [catch]. Reading [result.error] of [null]
    throws, like a text that is not JSON. *)
Definition readResponse (text : jsstring) : Settlement :=
  match JSON_parse text with
  | None | Some JNull => Rejected InvalidResponse
  | Some result =>
      if truthy (getProperty result (js "error")) then
        Rejected (ModelError (default JNull (getProperty result (js "error"))))
      else Resolved result
  end.

Definition onStdout (chunk : jsstring) (c : Call) : Call :=
  {| output := output c ++ chunk; errorOutput := errorOutput c;
     timeoutPending := timeoutPending c; child := child c;
     settled := settled c |}.

Definition onStderr (chunk : jsstring) (c : Call) : Call :=
  {| output := output c; errorOutput := errorOutput c ++ chunk;
     timeoutPending := timeoutPending c; child := child c;
     settled := settled c |}.

Definition onClose (now : N) (code : option Z) (c : Call) : Call :=
  let c := clearTimeout c in
  let c := match child c with Running => setChild Exited c | _ => c end in
  if bool_decide (code = Some 0) then settle now (readResponse (output c)) c
  else settle now (Rejected (ProcessExit code (errorOutput c))) c.

Definition onError (now : N) (message : jsstring) (c : Call) : Call :=
  settle now (Rejected (SpawnError message)) (clearTimeout c).

(** The timer callback: [py.kill('SIGKILL')], then [reject]. *)
Definition onTimeout (c : Call) : Call :=
  let c := {| output := output c; errorOutput := errorOutput c;
              timeoutPending := false; child := Killed;
              settled := settled c |} in
  settle timeoutMs (Rejected PredictionTimeout) c.

Definition onEvent (now : N) (ev : ProcessEvent) (c : Call) : Call :=
  match ev with
  | StdoutData chunk => onStdout chunk c
  | StderrData chunk => onStderr chunk c
  | Close code => onClose now code c
  | ProcessError message => onError now message c
  end.

(** The timer fires: the process is killed, what it would have done
    later does not happen, and it closes without an exit code. *)
Definition expire (c : Call) : Call :=
  onClose timeoutMs None (onTimeout c).

(** The listeners run in the order of the events; a pending timer fires
    before the first event that is due at or after [timeoutMs]. *)
Fixpoint runProcess (events : ProcessRun) (c : Call) : Call :=
  match events with
  | [] => if timeoutPending c then expire c else c
  | (now, ev) :: rest =>
      if timeoutPending c && (timeoutMs <=? now)%N then expire c
      else runProcess rest (onEvent now ev c)
  end.

(** [makeModelPrediction(parameters)]. The arguments of the predictor
    are the parameters; what it does with them is the environment's
    choice [predictor]. *)
Definition makeModelPrediction (predictor : ParameterRecord -> ProcessRun)
    (parameters : ParameterRecord) : Call :=
  runProcess (predictor parameters) started.

End PredictionService.

(** ** database/models/Experiment *)

Module Experiment.
Import JS ParameterUtils.

(** Modelled from the spec: the Experiment model (its file,
    database/models/Experiment.js, is not among the sources). A row has
    a generated identifier, the owning user, the parameter record, the
    predicted size and PdI, and the optional actual size and PdI
    ([None] is [null]). *)
Record Row := {
  experimentId : jsstring;
  userId : Z;
  parameters : ParameterRecord;
  predictedSize : Number;
  predictedPdI : Number;
  actualSize : option Number;
  actualPdI : option Number
}.

Abbreviation Table := (list Row).

(** [Experiment.findOne({ where: { experimentId, userId } })]: the first
    row with both values, with its position in the table. *)
Fixpoint findFrom (i : nat) (id : jsstring) (user : Z) (t : Table)
  : option (nat * Row) :=
  match t with
  | [] => None
  | r :: t' =>
      if bool_decide (experimentId r = id) && bool_decide (userId r = user)
      then Some (i, r)
      else findFrom (S i) id user t'
  end.

Definition findOne (id : jsstring) (user : Z) (t : Table) : option (nat * Row) :=
  findFrom 0 id user t.

(** [experiment.save()] of an instance read from position [i]. *)
Definition save (i : nat) (r : Row) (t : Table) : Table := <[i := r]> t.

(** [Experiment.create(...)]: the new row, with the identifier the
    store generates for it. *)
Definition create (id : jsstring) (user : Z) (p : ParameterRecord)
    (size pdi : Number) (t : Table) : Row * Table :=
  let r := {| experimentId := id; userId := user; parameters := p;
              predictedSize := size; predictedPdI := pdi;
              actualSize := None; actualPdI := None |} in
  (r, t ++ [r]).

End Experiment.

(** ** The bot: handlers and message dispatch *)

Module Bot.
Import JS ParameterUtils PredictionService.

(** The value of [predictionState] for a user: [{ state }]. The only
    state ever stored is ['awaiting_parameters']. *)
Inductive PredictionState := awaiting_parameters.

Inductive AddResultState :=
| awaiting_overwrite_confirmation
| awaiting_actual_size
| awaiting_actual_pdi.

(** The value of [addResultState] for a user:
    [{ state, experimentId, actualSize }], [actualSize] being absent
    until the size has been entered. *)
Record AddResultSession := {
  state : AddResultState;
  experimentId : jsstring;
  actualSize : option Number
}.

(** The texts the handlers send, one constructor per template, with the
    values the template shows. *)
Inductive Reply :=
| PredictionInstructions
    (* 🧪 Прогнозирование параметров наночастиц ... Или отправьте /cancel для отмены. *)
| StartPredictionFailed
    (* ❌ Произошла ошибка при запуске прогнозирования. ... *)
| PredictionCancelled
    (* 🛑 Прогнозирование отменено. *)
| ParameterError (error : option ValidationError)
    (* ❌ Ошибка в параметрах: ${validationResult.error} ... *)
| Processing
    (* ⏳ Обрабатываю запрос и выполняю прогнозирование... *)
| PredictionResult (parameters : ParameterRecord) (size pdi : Number)
    (sizeConfidence pdiConfidence : option JSValue) (experimentId : jsstring)
    (* 🔬 Результаты прогнозирования ... *)
| PredictionFailed
    (* ❌ Произошла ошибка при обработке параметров. Пожалуйста, проверьте ввод
       и попробуйте снова. *)
| ExperimentNotFound
    (* ❌ Эксперимент не найден или вы не имеете к нему доступа. ... *)
| OverwritePrompt
    (* ⚠️ Для этого эксперимента уже добавлены фактические результаты. Хотите
       перезаписать их? Отправьте "Да" для подтверждения или любое другое
       сообщение для отмены. *)
| AskActualSize (experiment : Experiment.Row)
    (* 📊 Добавление фактических результатов ... введите фактический размер *)
| AskActualSizeAgain (experiment : Experiment.Row)
    (* 📊 Обновление фактических результатов ... введите фактический размер *)
| StartAddResultFailed
    (* ❌ Произошла ошибка при обработке запроса. ... *)
| OperationCancelled
    (* 🛑 Операция отменена. *)
| InvalidSize
    (* ❌ Неверный формат. Пожалуйста, введите положительное число для размера
       частиц. *)
| AskActualPdI (size : Number)
    (* ✅ Размер частиц: ${size} нм ... Теперь введите фактический PdI *)
| InvalidPdI
    (* ❌ Неверный формат. Пожалуйста, введите неотрицательное число для PdI. *)
| ResultsSaved (experiment : Experiment.Row) (sizeDiff pdiDiff : Number)
    (* ✅ Фактические результаты сохранены! ... *)
| AddResultFailed.
    (* ❌ Произошла ошибка при обработке ввода. Пожалуйста, попробуйте позже. *)

(** A call of the Telegram client. *)
Inductive Action :=
| SendMessage (chatId : Z) (reply : Reply)
| EditMessageText (chatId : Z) (messageId : nat) (reply : Reply).

(** What the handlers read of an incoming message. [from_id] stands for
    [msg.from.id.toString()], the key of both session maps (the decimal
    text of an integer determines the integer). *)
Record Message := {
  chat_id : Z;
  from_id : Z;
  text : option jsstring
}.

(** The state the handlers work on: the two module-level maps, the
    table of experiments, and the calls made to the Telegram client, in
    order. A call of the client is recorded and returns. *)
Record World := {
  predictionState : gmap Z PredictionState;
  addResultState : gmap Z AddResultSession;
  experiments : Experiment.Table;
  outbox : list Action
}.

(** What the handlers take from their environment: the behaviour of the
    predictor that is spawned, and the identifier the store gives to a
    new experiment. *)
Record Env := {
  predictor : ParameterRecord -> ProcessRun;
  generateId : Experiment.Table -> jsstring
}.

(** Exceptions thrown inside a handler. *)
Inductive Exception :=
| PredictionRejected (reason : PredictionError)
| TypeError
| StoreValidationError.

Inductive Completion (A : Type) :=
| Normal (a : A)
| Thrown (e : Exception).
Arguments Normal {A} a.
Arguments Thrown {A} e.

(** The body of an [async] function, run to its end. *)
Definition M (A : Type) : Type := World -> Completion A * World.

#[global] Instance M_ret : MRet M := fun A a w => (Normal a, w).

#[global] Instance M_bind : MBind M := fun A B f m w =>
  match m w with
  | (Normal a, w') => f a w'
  | (Thrown e, w') => (Thrown e, w')
  end.

Definition throw {A} (e : Exception) : M A := fun w => (Thrown e, w).

(** [try { body } catch (error) { handler }]. *)
Definition tryCatch {A} (body : M A) (handler : Exception -> M A) : M A :=
  fun w =>
    match body w with
    | (Normal a, w') => (Normal a, w')
    | (Thrown e, w') => handler e w'
    end.

Definition get : M World := fun w => (Normal w, w).

(** The world once more calls of the client have been made. *)
Definition sent (w : World) (actions : list Action) : World :=
  {| predictionState := predictionState w;
     addResultState := addResultState w;
     experiments := experiments w;
     outbox := outbox w ++ actions |}.

(** [bot.sendMessage]; the result is the identifier of the message. *)
Definition sendMessage (chatId : Z) (reply : Reply) : M nat := fun w =>
  (Normal (length (outbox w)), sent w [SendMessage chatId reply]).

Definition editMessageText (chatId : Z) (messageId : nat) (reply : Reply)
  : M unit := fun w =>
  (Normal tt, sent w [EditMessageText chatId messageId reply]).

Definition setPredictionState (s : gmap Z PredictionState) : M unit :=
  fun w =>
  (Normal tt,
   {| predictionState := s; addResultState := addResultState w;
      experiments := experiments w; outbox := outbox w |}).

Definition setAddResultState (s : gmap Z AddResultSession) : M unit :=
  fun w =>
  (Normal tt,
   {| predictionState := predictionState w; addResultState := s;
      experiments := experiments w; outbox := outbox w |}).

Definition setExperiments (t : Experiment.Table) : M unit := fun w =>
  (Normal tt,
   {| predictionState := predictionState w;
      addResultState := addResultState w;
      experiments := t; outbox := outbox w |}).

(** [predictionState.get / set / delete] and the same for
    [addResultState]. *)
Definition predictionState_get (userId : Z) : M (option PredictionState) :=
  w ← get; mret (predictionState w !! userId).

Definition predictionState_set (userId : Z) (s : PredictionState) : M unit :=
  w ← get; setPredictionState (<[userId := s]> (predictionState w)).

Definition predictionState_delete (userId : Z) : M unit :=
  w ← get; setPredictionState (delete userId (predictionState w)).

Definition addResultState_get (userId : Z) : M (option AddResultSession) :=
  w ← get; mret (addResultState w !! userId).

Definition addResultState_set (userId : Z) (s : AddResultSession) : M unit :=
  w ← get; setAddResultState (<[userId := s]> (addResultState w)).

Definition addResultState_delete (userId : Z) : M unit :=
  w ← get; setAddResultState (delete userId (addResultState w)).

(** [await Experiment.findOne(...)], [await experiment.save()] and
    [await Experiment.create(...)]. *)
Definition Experiment_findOne (id : jsstring) (userId : Z)
  : M (option (nat * Experiment.Row)) :=
  w ← get; mret (Experiment.findOne id userId (experiments w)).

Definition Experiment_save (i : nat) (r : Experiment.Row) : M unit :=
  w ← get; setExperiments (Experiment.save i r (experiments w)).

Definition Experiment_create (env : Env) (userId : Z) (p : ParameterRecord)
    (size pdi : Number) : M Experiment.Row :=
  w ← get;
  let '(r, t) := Experiment.create (generateId env (experiments w)) userId p
                   size pdi (experiments w) in
  setExperiments t;; mret r.

(** [await makeModelPrediction(parameters)]: the value the promise is
    resolved with, an exception when it is rejected. A call always
    settles (see [PredictionServiceFacts.call_settles]); the last case
    is there for the type only. *)
Definition awaitPrediction (c : Call) : M JSValue :=
  match settled c with
  | Some (_, Resolved result) => mret result
  | Some (_, Rejected reason) => throw (PredictionRejected reason)
  | None => throw (PredictionRejected PredictionTimeout)
  end.

(** [!msg.text]: the text is absent or empty. *)
Definition noText (msg : Message) : bool :=
  match text msg with
  | None | Some [] => true
  | Some (_ :: _) => false
  end.

Definition msgText (msg : Message) : jsstring := default [] (text msg).

Definition cancelCommand : jsstring := js "/cancel".

(** ['да'], the lower-cased confirmation. *)
Definition yes : jsstring := [1076; 1072]%N.

(** *** bot/handlers/predictionHandler.js *)

Definition startPrediction (msg : Message) : M unit :=
  let chatId := chat_id msg in
  let userId := from_id msg in
  tryCatch
    (predictionState_delete userId;;
     sendMessage chatId PredictionInstructions;;
     predictionState_set userId awaiting_parameters)
    (fun _ => sendMessage chatId StartPredictionFailed;; mret tt).

(** The part of [handlePredictionResponse] after the prediction has
    arrived. The predicted size and PdI of an experiment are numbers
    (see [Experiment.Row]), so a prediction without a numeric [size] or
    [pdi] cannot be stored; in the sources the next step,
    [prediction.size.toFixed(1)], throws a [TypeError] on it as well.
    The exception reaches the [catch] block of the handler. *)
Definition storeAndReport (env : Env) (chatId userId : Z)
    (parameters : ParameterRecord) (processingMsg : nat)
    (prediction : JSValue) : M unit :=
  match getProperty prediction (js "size"),
        getProperty prediction (js "pdi") with
  | Some (JNum size), Some (JNum pdi) =>
      experiment ← Experiment_create env userId parameters size pdi;
      editMessageText chatId processingMsg
        (PredictionResult parameters size pdi
           (getProperty prediction (js "sizeConfidence"))
           (getProperty prediction (js "pdiConfidence"))
           (Experiment.experimentId experiment));;
      predictionState_delete userId
  | _, _ => throw StoreValidationError
  end.

Definition handlePredictionResponse (env : Env) (msg : Message) : M unit :=
  if noText msg then mret tt
  else
    let chatId := chat_id msg in
    let userId := from_id msg in
    userState ← predictionState_get userId;
    match userState with
    | None => mret tt
    | Some awaiting_parameters =>
        tryCatch
          (if bool_decide (toLowerCase (msgText msg) = cancelCommand) then
             predictionState_delete userId;;
             sendMessage chatId PredictionCancelled;;
             mret tt
           else
             let parameterInput := trim (msgText msg) in
             let paramArray := map trim (splitWhitespace parameterInput) in
             let validationResult := validateParameters paramArray in
             if negb (valid validationResult) then
               sendMessage chatId (ParameterError (error validationResult));;
               mret tt
             else
               let parameters := convertParametersToObject paramArray in
               processingMsg ← sendMessage chatId Processing;
               prediction ← awaitPrediction
                              (makeModelPrediction (predictor env) parameters);
               storeAndReport env chatId userId parameters processingMsg
                 prediction)
          (fun _ =>
             sendMessage chatId PredictionFailed;;
             predictionState_delete userId)
    end.

(** *** bot/handlers/experimentHandler.js *)

Definition hasActualResults (e : Experiment.Row) : bool :=
  bool_decide (is_Some (Experiment.actualSize e))
  && bool_decide (is_Some (Experiment.actualPdI e)).

Definition startAddResult (msg : Message) (experimentId : jsstring) : M unit :=
  let chatId := chat_id msg in
  let userId := from_id msg in
  tryCatch
    (experiment ← Experiment_findOne experimentId userId;
     match experiment with
     | None => sendMessage chatId ExperimentNotFound;; mret tt
     | Some (_, e) =>
         if hasActualResults e then
           sendMessage chatId OverwritePrompt;;
           addResultState_set userId
             {| state := awaiting_overwrite_confirmation;
                experimentId := experimentId; actualSize := None |}
         else
           sendMessage chatId (AskActualSize e);;
           addResultState_set userId
             {| state := awaiting_actual_size;
                experimentId := experimentId; actualSize := None |}
     end)
    (fun _ => sendMessage chatId StartAddResultFailed;; mret tt).

(** [formatExperimentForDisplay(experiment)]: reading a property of
    [null] throws. The display is kept as the row it shows. *)
Definition formatExperimentForDisplay (experiment : option (nat * Experiment.Row))
  : M Experiment.Row :=
  match experiment with
  | Some (_, e) => mret e
  | None => throw TypeError
  end.

(** [((actual - predicted) / predicted * 100)], before [toFixed(1)];
    an [actual] that is [undefined] makes it [NaN]. *)
Definition percentDiff (actual : option Number) (predicted : Number) : Number :=
  match actual with
  | Some a => ((a - predicted) / predicted * 100)%float
  | None => nan
  end.

(** The case ['awaiting_actual_pdi'] once the PdI is accepted. The state
    is only entered with the size stored; without it the row would be
    written with no actual size and the summary would throw on
    [userState.actualSize.toFixed]. *)
Definition saveResults (chatId userId : Z) (userState : AddResultSession)
    (pdi : Number) : M unit :=
  experiment ← Experiment_findOne (experimentId userState) userId;
  match experiment with
  | None => throw TypeError
  | Some (i, e) =>
      let sizeDiff := percentDiff (actualSize userState) (Experiment.predictedSize e) in
      let pdiDiff := percentDiff (Some pdi) (Experiment.predictedPdI e) in
      let e' := {| Experiment.experimentId := Experiment.experimentId e;
                   Experiment.userId := Experiment.userId e;
                   Experiment.parameters := Experiment.parameters e;
                   Experiment.predictedSize := Experiment.predictedSize e;
                   Experiment.predictedPdI := Experiment.predictedPdI e;
                   Experiment.actualSize := actualSize userState;
                   Experiment.actualPdI := Some pdi |} in
      Experiment_save i e';;
      addResultState_delete userId;;
      match actualSize userState with
      | Some _ => sendMessage chatId (ResultsSaved e' sizeDiff pdiDiff);; mret tt
      | None => throw TypeError
      end
  end.

Definition handleAddResultResponse (msg : Message) : M unit :=
  if noText msg then mret tt
  else
    let chatId := chat_id msg in
    let userId := from_id msg in
    userState ← addResultState_get userId;
    match userState with
    | None => mret tt
    | Some userState =>
        tryCatch
          (if bool_decide (toLowerCase (msgText msg) = cancelCommand) then
             addResultState_delete userId;;
             sendMessage chatId OperationCancelled;;
             mret tt
           else
             match state userState with
             | awaiting_overwrite_confirmation =>
                 if bool_decide (toLowerCase (msgText msg) = yes) then
                   experiment ← Experiment_findOne (experimentId userState) userId;
                   experimentDisplay ← formatExperimentForDisplay experiment;
                   sendMessage chatId (AskActualSizeAgain experimentDisplay);;
                   addResultState_set userId
                     {| state := awaiting_actual_size;
                        experimentId := experimentId userState;
                        actualSize := actualSize userState |}
                 else
                   addResultState_delete userId;;
                   sendMessage chatId OperationCancelled;;
                   mret tt
             | awaiting_actual_size =>
                 let sizeInput := trim (msgText msg) in
                 let size := parseFloat sizeInput in
                 if isNaN size || (size <=? 0)%float then
                   sendMessage chatId InvalidSize;;
                   mret tt
                 else
                   addResultState_set userId
                     {| state := awaiting_actual_pdi;
                        experimentId := experimentId userState;
                        actualSize := Some size |};;
                   sendMessage chatId (AskActualPdI size);;
                   mret tt
             | awaiting_actual_pdi =>
                 let pdiInput := trim (msgText msg) in
                 let pdi := parseFloat pdiInput in
                 if isNaN pdi || (pdi <? 0)%float then
                   sendMessage chatId InvalidPdI;;
                   mret tt
                 else saveResults chatId userId userState pdi
             end)
          (fun _ =>
             sendMessage chatId AddResultFailed;;
             addResultState_delete userId)
    end.

(** *** bot/index.js: the listener of every message

    The command listeners ([bot.onText]) are not part of the model:
    none of their patterns matches ["/cancel"], and only [/predict] and
    [/add_result] (the two [start...] functions above) touch the
    session maps. *)
Definition onMessage (env : Env) (msg : Message) : M unit :=
  if negb (noText msg) && negb (startsWith (js "/") (msgText msg)) then
    handlePredictionResponse env msg;;
    handleAddResultResponse msg
  else mret tt.

End Bot.

(** ** Vocabulary of the statements and sample situations *)

Module Scenarios.
Import JS ParameterUtils PredictionService Bot.

(** The world after a handler has run. *)
Definition after {A} (m : M A) (w : World) : World := snd (m w).

(** The range constraints of a parameter record (a comparison with
    [NaN] is false, so a field that is [NaN] violates its constraint). *)
Definition nonNegative (x : Number) : bool := (0 <=? x)%float.

Definition positive (x : Number) : bool := (0 <? x)%float.

Definition integerBetween (lo hi : Z) (x : IntNumber) : bool :=
  match x with
  | Some z => (lo <=? z) && (z <=? hi)
  | None => false
  end.

Definition satisfiesConstraints (r : ParameterRecord) : bool :=
  nonNegative (euConcentration r)
  && nonNegative (phenanthrolineConcentration r)
  && nonNegative (ligandConcentration r)
  && integerBetween 0 3 (ligandType r)
  && integerBetween 7 11 (phBsa r)
  && positive (additionVolume r)
  && positive (additionTime r)
  && positive (additionRate r).

(** Whether a result is the parameter-count error. *)
Definition isParameterCountError (r : ValidationResult) : bool :=
  negb (valid r) &&
  match error r with
  | Some (ParameterCountError _) => true
  | _ => false
  end.

(** A token that is the decimal numeral of an integer: an optional sign
    and digits, nothing else. *)
Definition isIntegerNumeral (t : jsstring) : bool :=
  match snd (readSign t) with
  | [] => false
  | ds => forallb isDigit ds
  end.

(** The fields a prediction is documented to carry. *)
Definition requiredFields : list jsstring :=
  [js "size"; js "pdi"; js "sizeConfidence"; js "pdiConfidence"].

Definition hasRequiredFields (v : JSValue) : bool :=
  forallb (fun k => bool_decide (is_Some (getProperty v k))) requiredFields.

(** The tokens of a line of text, as [handlePredictionResponse] cuts
    it. *)
Definition tokens (line : string) : list jsstring :=
  map trim (splitWhitespace (trim (js line))).

(** The events of a run that are data on a pipe. *)
Definition isData (ev : ProcessEvent) : bool :=
  match ev with
  | StdoutData _ | StderrData _ => true
  | Close _ | ProcessError _ => false
  end.

(** What a run writes to its standard output. *)
Fixpoint stdoutOf (events : ProcessRun) : jsstring :=
  match events with
  | [] => []
  | (_, StdoutData chunk) :: rest => chunk ++ stdoutOf rest
  | _ :: rest => stdoutOf rest
  end.

(** The events are data only and all occur before the deadline. *)
Definition writesBefore (deadline : N) (events : ProcessRun) : bool :=
  forallb (fun e => isData (snd e) && (fst e <? deadline)%N) events.

(** The process has neither closed nor failed when the deadline comes:
    every event before the first one due at or after it is data. *)
Fixpoint stillRunningAt (deadline : N) (events : ProcessRun) : bool :=
  match events with
  | [] => true
  | (now, ev) :: rest =>
      (deadline <=? now)%N || (isData ev && stillRunningAt deadline rest)
  end.

(** A call is in order: the timer is pending exactly while the promise
    is unsettled, and a settlement happened by the deadline. *)
Definition inOrder (c : Call) : Prop :=
  if timeoutPending c then settled c = None
  else exists now s, settled c = Some (now, s) /\ (now <= timeoutMs)%N.

(** The parameter array [handlePredictionResponse] builds. *)
Definition paramArrayOf (msg : Message) : list jsstring :=
  map trim (splitWhitespace (trim (msgText msg))).

(** The world once the session of a user in the Prediction flow has
    been cleared and more calls of the client have been made. *)
Definition predictionCleared (w : World) (userId : Z) (actions : list Action)
  : World :=
  {| predictionState := delete userId (predictionState w);
     addResultState := addResultState w;
     experiments := experiments w;
     outbox := outbox w ++ actions |}.

(** A user in a private chat, and a text message of theirs. *)
Definition alice : Z := 42.

Definition message (t : jsstring) : Message :=
  {| chat_id := alice; from_id := alice; text := Some t |}.

(** An experiment of that user with both actual values entered. *)
Definition measured : Experiment.Row :=
  {| Experiment.experimentId := js "7f3a";
     Experiment.userId := alice;
     Experiment.parameters :=
       convertParametersToObject (tokens "1 1 3 2 11 500 30");
     Experiment.predictedSize := 120.5;
     Experiment.predictedPdI := 0.25;
     Experiment.actualSize := Some 118%float;
     Experiment.actualPdI := Some 0.5%float |}.

(** The user is in the Prediction flow. *)
Definition predicting : World :=
  {| predictionState := {[ alice := awaiting_parameters ]};
     addResultState := ∅;
     experiments := [];
     outbox := [] |}.

(** The user is in the Result-Entry flow for [measured]. *)
Definition entering (st : AddResultState) (size : option Number) : World :=
  {| predictionState := ∅;
     addResultState :=
       {[ alice := {| state := st; experimentId := js "7f3a";
                      actualSize := size |} ]};
     experiments := [measured];
     outbox := [] |}.

(** A predictor that writes [out] and exits with [code] after 2 s, and
    one that writes nothing and does not end. *)
Definition exiting (code : Z) (out : jsstring) : Env :=
  {| predictor := fun _ => [(1500%N, StdoutData out); (2000%N, Close (Some code))];
     generateId := fun _ => js "81bc" |}.

Definition hanging : Env :=
  {| predictor := fun _ => [(20000%N, StdoutData (js "late"))];
     generateId := fun _ => js "81bc" |}.

(** ["Да"], ["да"] and ["ДА"]. *)
Definition Da : jsstring := [1044; 1072]%N.
Definition da : jsstring := [1076; 1072]%N.
Definition DA : jsstring := [1044; 1040]%N.

(** What can happen to the world: one of the two commands that open a
    flow is handled, or the listener handles a message. *)
Inductive Step : World -> World -> Prop :=
| StepPredict (msg : Message) (w : World) :
    Step w (after (startPrediction msg) w)
| StepAddResult (msg : Message) (id : jsstring) (w : World) :
    Step w (after (startAddResult msg id) w)
| StepMessage (env : Env) (msg : Message) (w : World) :
    Step w (after (onMessage env msg) w).

(** The world the bot starts in, and the worlds it can get to. *)
Definition initial (t : Experiment.Table) : World :=
  {| predictionState := ∅; addResultState := ∅; experiments := t;
     outbox := [] |}.

Inductive Reachable : World -> Prop :=
| ReachableInitial (t : Experiment.Table) : Reachable (initial t)
| ReachableStep (w w' : World) : Reachable w -> Step w w' -> Reachable w'.

(** Every Result-Entry session is about a stored experiment of its user,
    and holds the actual size once it waits for the PdI. *)
Definition sessionsSound (w : World) : Prop :=
  forall (userId : Z) (s : AddResultSession),
    addResultState w !! userId = Some s ->
    is_Some (Experiment.findOne (experimentId s) userId (experiments w))
    /\ (state s = awaiting_actual_pdi -> is_Some (actualSize s)).

End Scenarios.

(** ** Further vocabulary *)

Module Vocabulary.
Import JS ParameterUtils PredictionService Bot Scenarios.

(** What a run writes to its standard error. *)
Fixpoint stderrOf (events : ProcessRun) : jsstring :=
  match events with
  | [] => []
  | (_, StderrData chunk) :: rest => chunk ++ stderrOf rest
  | _ :: rest => stderrOf rest
  end.

(** No [error] event occurs in the run. *)
Definition noErrorEvent (events : ProcessRun) : bool :=
  forallb (fun e => match snd e with ProcessError _ => false | _ => true end)
    events.

(** The listeners run on a sequence of events, one after the other
    (no timer). *)
Fixpoint feed (events : ProcessRun) (c : Call) : Call :=
  match events with
  | [] => c
  | (now, ev) :: rest => feed rest (onEvent now ev c)
  end.

(** The constraints a record violates, as the errors that report them,
    in the order of the fields. *)
Definition violations (r : ParameterRecord) : list ValidationError :=
  (if nonNegative (euConcentration r) then [] else [EuConcentrationError])
  ++ (if nonNegative (phenanthrolineConcentration r) then []
      else [PhenanthrolineConcentrationError])
  ++ (if nonNegative (ligandConcentration r) then []
      else [LigandConcentrationError])
  ++ (if integerBetween 0 3 (ligandType r) then [] else [LigandTypeError])
  ++ (if integerBetween 7 11 (phBsa r) then [] else [PhBsaError])
  ++ (if positive (additionVolume r) then [] else [AdditionVolumeError])
  ++ (if positive (additionTime r) then [] else [AdditionTimeError])
  ++ (if positive (additionRate r) then [] else [AdditionRateError]).

(** The timer and the child agree with the promise: while the timer is
    pending the promise is unsettled and the child runs; afterwards the
    promise is settled, and the child was killed exactly if the
    settlement is the timeout. *)
Definition timerSound (c : Call) : Prop :=
  if timeoutPending c then settled c = None /\ child c = Running
  else (child c = Killed
        <-> settled c = Some (timeoutMs, Rejected PredictionTimeout))
       /\ is_Some (settled c).

(** Two rows are the same experiment with the same forecast: they
    agree on everything but the actual values. *)
Definition sameForecast (e e' : Experiment.Row) : Prop :=
  Experiment.experimentId e' = Experiment.experimentId e
  /\ Experiment.userId e' = Experiment.userId e
  /\ Experiment.parameters e' = Experiment.parameters e
  /\ Experiment.predictedSize e' = Experiment.predictedSize e
  /\ Experiment.predictedPdI e' = Experiment.predictedPdI e.

(** A row with its actual values written. *)
Definition withActual (e : Experiment.Row) (size : option Number)
    (pdi : Number) : Experiment.Row :=
  {| Experiment.experimentId := Experiment.experimentId e;
     Experiment.userId := Experiment.userId e;
     Experiment.parameters := Experiment.parameters e;
     Experiment.predictedSize := Experiment.predictedSize e;
     Experiment.predictedPdI := Experiment.predictedPdI e;
     Experiment.actualSize := size;
     Experiment.actualPdI := Some pdi |}.

(** Every size kept in a Result-Entry session is greater than 0. *)
Definition sizesPositive (w : World) : Prop :=
  forall (userId : Z) (s : AddResultSession) (x : Number),
    addResultState w !! userId = Some s ->
    actualSize s = Some x -> positive x = true.

(** The two sessions of a user. *)
Definition sessionsOf (userId : Z) (w : World)
  : option PredictionState * option AddResultSession :=
  (predictionState w !! userId, addResultState w !! userId).

End Vocabulary.

(** ** The prediction service that simulates the models

    [ml/predictionService.js] in the variant that computes the
    forecast from a formula. [Math.log] and the values [Math.random]
    returns are taken from the environment: the language fixes neither
    of them. *)

Module SimulatedPredictionService.
Import JS ParameterUtils.

Local Open Scope float_scope.

(** The Number that a result of [parseInt] is. *)
Definition toNumber (x : IntNumber) : Number :=
  match x with
  | None => nan
  | Some z => SF2Prim (binary_normalize prec emax z 0 false)
  end.

Definition isNegativeZero (x : Number) : bool :=
  match Prim2SF x with
  | S754_zero true => true
  | _ => false
  end.

(** [Math.min] and [Math.max] of two Numbers: [NaN] if one of them is
    [NaN]; [-0] counts as less than [+0]. *)
Definition Math_min (a b : Number) : Number :=
  if isNaN a || isNaN b then nan
  else if a <? b then a
  else if b <? a then b
  else if isNegativeZero a then a else b.

Definition Math_max (a b : Number) : Number :=
  if isNaN a || isNaN b then nan
  else if a <? b then b
  else if b <? a then a
  else if isNegativeZero a then b else a.

(** [Math.sqrt], the correctly rounded square root. *)
Definition Math_sqrt (x : Number) : Number := sqrt x.

Section Environment.

Variable Math_log : Number -> Number.

(** [random] is the value [Math.random()] returns in the call. *)
#[warnings="-inexact-float"]
Definition simulateSizePrediction (random : Number) (params : ParameterRecord)
  : Number :=
  let euEffect := euConcentration params * 10 in
  let phenEffect := phenanthrolineConcentration params * 5 in
  let ligandEffect :=
    ligandConcentration params * 2 * (toNumber (ligandType params) + 1) in
  let phEffect := (toNumber (phBsa params) - 7) * 15 in
  let volumeEffect := Math_log (additionVolume params) * 5 in
  let timeEffect := Math_sqrt (additionTime params) * 2 in
  let rateEffect := additionRate params * 0.5 in
  let size := 100 + euEffect + phenEffect - ligandEffect + phEffect
              - volumeEffect + timeEffect - rateEffect in
  let size := size + (random - 0.5) * 20 in
  Math_max 20 (Math_min 500 size).

#[warnings="-inexact-float"]
Definition simulatePdiPrediction (random : Number) (params : ParameterRecord)
  : Number :=
  let euEffect := euConcentration params * 0.02 in
  let phenEffect := phenanthrolineConcentration params * 0.01 in
  let ligandEffect :=
    ligandConcentration params * 0.005 * (toNumber (ligandType params) + 1) in
  let phEffect := (toNumber (phBsa params) - 7) * 0.03 in
  let volumeEffect := Math_log (additionVolume params) * 0.01 in
  let timeEffect := Math_sqrt (additionTime params) * 0.004 in
  let rateEffect := additionRate params * 0.001 in
  let pdi := 0.2 - euEffect + phenEffect - ligandEffect - phEffect
             + volumeEffect - timeEffect + rateEffect in
  let pdi := pdi + (random - 0.5) * 0.05 in
  Math_max 0.05 (Math_min 0.5 pdi).

(** The object the promise is resolved with. The two calls of
    [Math.random] return [random1] and [random2]. Nothing in the body
    throws, so the [catch] block is never entered. *)
#[warnings="-inexact-float"]
Definition makeModelPrediction (random1 random2 : Number)
    (parameters : ParameterRecord) : JSValue :=
  let size := simulateSizePrediction random1 parameters in
  let pdi := simulatePdiPrediction random2 parameters in
  let sizeConfidence := 0.85 in
  let pdiConfidence := 0.82 in
  JObj [(js "size", JNum size); (js "pdi", JNum pdi);
        (js "sizeConfidence", JNum sizeConfidence);
        (js "pdiConfidence", JNum pdiConfidence)].

End Environment.

End SimulatedPredictionService.

(** ** The correlation behind the heat map

    [utils/chartUtils.js]: the Pearson coefficient of two series and
    the matrix of the coefficients of every pair of series. *)

Module ChartUtils.
Import JS.

Local Open Scope float_scope.

(** [x[i]] in arithmetic: the element, [NaN] for the [undefined] read
    past the end. *)
Definition element (x : list Number) (i : nat) : Number :=
  default nan (x !! i).

(** The Number a length is. *)
Definition lengthNumber (n : nat) : Number :=
  of_uint63 (Uint63.of_Z (Z.of_nat n)).

Definition calculatePearsonCorrelation (x y : list Number) : Number :=
  let n := Nat.min (length x) (length y) in
  if (n =? 0)%nat then 0
  else
    let '(sumX, sumY) :=
      fold_left
        (fun '(sumX, sumY) i => (sumX + element x i, sumY + element y i))
        (seq 0 n) (0, 0) in
    let meanX := sumX / lengthNumber n in
    let meanY := sumY / lengthNumber n in
    let '(numerator, denominatorX, denominatorY) :=
      fold_left
        (fun '(numerator, denominatorX, denominatorY) i =>
           let diffX := element x i - meanX in
           let diffY := element y i - meanY in
           (numerator + diffX * diffY,
            denominatorX + diffX * diffX,
            denominatorY + diffY * diffY))
        (seq 0 n) (0, 0, 0) in
    let denominator := sqrt (denominatorX * denominatorY) in
    if denominator =? 0 then 0 else numerator / denominator.

(** The [data] object: its properties in the order of their creation,
    each the series of a parameter. *)
Definition Data : Type := list (jsstring * list Number).

(** [Object.keys(data)] and [data[key]]. *)
Definition keys (data : Data) : list jsstring := map fst data.

Definition property (data : Data) (key : jsstring) : list Number :=
  match find (fun kv => bool_decide (fst kv = key)) data with
  | Some (_, series) => series
  | None => []
  end.

(** [correlationMatrix[i][j] = v]. The rows are arrays of their own
    ([Array(n).fill().map(() => Array(n).fill(0))] makes one per row),
    so the assignment changes row [i] only; both indices are within
    the matrix wherever the function assigns. *)
Definition setCell (i j : nat) (v : Number) (m : list (list Number))
  : list (list Number) :=
  match m !! i with
  | Some row => <[i := <[j := v]> row]> m
  | None => m
  end.

Definition calculateCorrelationMatrix (data : Data) : list (list Number) :=
  let params := keys data in
  let n := length params in
  let correlationMatrix := replicate n (replicate n 0) in
  fold_left
    (fun correlationMatrix i =>
       fold_left
         (fun correlationMatrix j =>
            if (i =? j)%nat then setCell i j 1 correlationMatrix
            else
              let x := property data (default [] (params !! i)) in
              let y := property data (default [] (params !! j)) in
              setCell i j (calculatePearsonCorrelation x y) correlationMatrix)
         (seq 0 n) correlationMatrix)
    (seq 0 n) correlationMatrix.

(** [correlationMatrix[i][j]], if there is such a cell. *)
Definition cell (m : list (list Number)) (i j : nat) : option Number :=
  row ← m !! i; row !! j.

End ChartUtils.

(** * Properties *)

(** ** The runtime *)

Module JSFacts.
Import JS.

Local Open Scope float_scope.

Lemma SFeqb_diag (x : spec_float) :
  SFeqb x x = match x with S754_nan => false | _ => true end.
Proof.
  destruct x as [s | s | | s m e]; try (destruct s; reflexivity); try reflexivity.
  unfold SFeqb, SFcompare.
  rewrite Z.compare_refl, Pos.compare_cont_refl.
  destruct s; reflexivity.
Qed.

Lemma isNaN_spec (x : Number) :
  isNaN x = match Prim2SF x with S754_nan => true | _ => false end.
Proof.
  unfold isNaN, is_nan.
  rewrite FloatAxioms.eqb_spec, SFeqb_diag.
  destruct (Prim2SF x); reflexivity.
Qed.

(** [!(isNaN(x) || x < 0)] is [0 <= x]. *)
Lemma not_negative (x : Number) : negb (isNaN x || (x <? 0)) = (0 <=? x).
Proof.
  rewrite leb_spec, ltb_spec, isNaN_spec.
  change (Prim2SF 0) with (S754_zero false).
  destruct (Prim2SF x) as [s | s | | s m e]; try destruct s; reflexivity.
Qed.

(** [!(isNaN(x) || x <= 0)] is [0 < x]. *)
Lemma not_non_positive (x : Number) : negb (isNaN x || (x <=? 0)) = (0 <? x).
Proof.
  rewrite leb_spec, ltb_spec, isNaN_spec.
  change (Prim2SF 0) with (S754_zero false).
  destruct (Prim2SF x) as [s | s | | s m e]; try destruct s; reflexivity.
Qed.

(** The parsers on texts of the kind the bot receives. *)
Example parseFloat_examples :
  parseFloat (js "500") = 500
  /\ parseFloat (js "  125.5 nm") = 125.5
  /\ parseFloat (js ".5e1") = 5
  /\ parseFloat (js "-0.125") = (-0.125)
  /\ parseFloat (js "Infinity") = infinity
  /\ isNaN (parseFloat (js "/cancel")) = true
  /\ isNaN (parseFloat []) = true.
Proof. vm_compute. repeat split. Qed.

Example parseInt_examples :
  parseInt (js "2") = Some 2%Z
  /\ parseInt (js "7.5") = Some 7%Z
  /\ parseInt (js "-3abc") = Some (-3)%Z
  /\ parseInt (js "0x1f") = Some 31%Z
  /\ parseInt (js "abc") = None
  /\ parseInt (js "undefined") = None.
Proof. vm_compute. repeat split. Qed.

Example JSON_parse_examples :
  JSON_parse (jsq "{'size': 120.5, 'pdi': 0.25}")
    = Some (JObj [(js "size", JNum 120.5); (js "pdi", JNum 0.25)])
  /\ JSON_parse (jsq " [1, true, null, 'aA'] ")
    = Some (JArr [JNum 1; JBool true; JNull; JStr (js "aA")])
  /\ JSON_parse (jsq "{'size': 1,}") = None
  /\ JSON_parse (js "Traceback (most recent call last):") = None
  /\ JSON_parse [] = None.
Proof. vm_compute. repeat split. Qed.

Example split_examples :
  splitWhitespace (trim (js "  1 1	3   2 ")) = [js "1"; js "1"; js "3"; js "2"]
  /\ splitWhitespace [] = [[]].
Proof. vm_compute. split; reflexivity. Qed.

Example toLowerCase_examples :
  toLowerCase (js "/CaNcEL") = js "/cancel"
  /\ toLowerCase [1044; 1040]%N = [1076; 1072]%N
  /\ toLowerCase (js " /cancel") <> js "/cancel".
Proof. vm_compute. repeat split. discriminate. Qed.

(** A text that lower-cases to ["/cancel"] starts with ["/"]. *)
Lemma lowerUnit_slash (c : N) : lowerUnit c = 47%N -> c = 47%N.
Proof.
  unfold lowerUnit.
  repeat case_match; intros Hc; try assumption;
    repeat match goal with
      | H : (_ && _) = true |- _ => apply andb_prop in H as [? ?]
      | H : (_ <=? _)%N = true |- _ => apply N.leb_le in H
      end; lia.
Qed.

Lemma cancel_starts_with_slash (t : jsstring) :
  toLowerCase t = js "/cancel" -> startsWith (js "/") t = true.
Proof.
  destruct t as [| c r]; [discriminate |].
  intros H. injection H as Hc _.
  apply lowerUnit_slash in Hc. subst c. reflexivity.
Qed.

End JSFacts.

(** ** The parameter validator *)

Module ParameterUtilsFacts.
Import JS ParameterUtils Scenarios JSFacts.

(** With 7 or 8 tokens, the validator accepts exactly when the record
    the converter builds from the same tokens satisfies the range
    constraints: both parse every position alike. *)
Lemma valid_when_constraints (paramArray : list jsstring) :
  length paramArray = 7%nat \/ length paramArray = 8%nat ->
  valid (validateParameters paramArray)
  = satisfiesConstraints (convertParametersToObject paramArray).
Proof.
  intros Hlen.
  unfold validateParameters, convertParametersToObject, satisfiesConstraints,
    nonNegative, positive.
  assert (((length paramArray <? 7) || (8 <? length paramArray))%nat = false)
    as -> by (destruct Hlen as [-> | ->]; reflexivity).
  cbv zeta. cbn [euConcentration phenanthrolineConcentration
    ligandConcentration ligandType phBsa additionVolume additionTime
    additionRate].
  rewrite <- !not_negative, <- !not_non_positive.
  set (rate := if (length paramArray =? 8)%nat then _ else _).
  destruct (isNaN (parseFloat (item paramArray 0)) || _)%float; [reflexivity |].
  destruct (isNaN (parseFloat (item paramArray 1)) || _)%float; [reflexivity |].
  destruct (isNaN (parseFloat (item paramArray 2)) || _)%float; [reflexivity |].
  destruct (parseInt (item paramArray 3)) as [lt |]; cbn; [| reflexivity].
  destruct (lt <? 0) eqn:E1; [replace (0 <=? lt) with false by lia; reflexivity |].
  destruct (3 <? lt) eqn:E2;
    [replace (lt <=? 3) with false by lia; rewrite andb_false_r; reflexivity |].
  replace (0 <=? lt) with true by lia. replace (lt <=? 3) with true by lia.
  destruct (parseInt (item paramArray 4)) as [ph |]; cbn; [| reflexivity].
  destruct (ph <? 7) eqn:E3; [replace (7 <=? ph) with false by lia; reflexivity |].
  destruct (11 <? ph) eqn:E4;
    [replace (ph <=? 11) with false by lia; rewrite andb_false_r; reflexivity |].
  replace (7 <=? ph) with true by lia. replace (ph <=? 11) with true by lia.
  cbn.
  destruct (isNaN (parseFloat (item paramArray 5)) || _)%float; [reflexivity |].
  destruct (isNaN (parseFloat (item paramArray 6)) || _)%float; [reflexivity |].
  destruct (isNaN rate || _)%float; reflexivity.
Qed.

(** An accepted array has 7 or 8 tokens. *)
Lemma valid_length (paramArray : list jsstring) :
  valid (validateParameters paramArray) = true ->
  length paramArray = 7%nat \/ length paramArray = 8%nat.
Proof.
  unfold validateParameters.
  destruct ((length paramArray <? 7) || (8 <? length paramArray))%nat eqn:E.
  - discriminate.
  - intros _. apply orb_false_elim in E as [E1 E2].
    apply Nat.ltb_ge in E1, E2. lia.
Qed.

(** C5. The validator fails with the parameter-count error exactly on
    the token sequences whose length is neither 7 nor 8 (and the error
    then reports that length): every such sequence gets it, no sequence
    of length 7 or 8 does. *)
Theorem parameter_count_error (paramArray : list jsstring) :
  (isParameterCountError (validateParameters paramArray) = true
   <-> length paramArray <> 7%nat /\ length paramArray <> 8%nat)
  /\ (isParameterCountError (validateParameters paramArray) = true
      <-> validateParameters paramArray
          = rejected (ParameterCountError (length paramArray))).
Proof.
  destruct ((length paramArray <? 7) || (8 <? length paramArray))%nat eqn:E.
  - assert (validateParameters paramArray
            = rejected (ParameterCountError (length paramArray))) as Hv
      by (unfold validateParameters; rewrite E; reflexivity).
    rewrite Hv. cbn. repeat split; try reflexivity.
    all: apply orb_true_iff in E as [E | E]; apply Nat.ltb_lt in E; lia.
  - assert (length paramArray = 7%nat \/ length paramArray = 8%nat) as Hlen.
    { apply orb_false_elim in E as [E1 E2]. apply Nat.ltb_ge in E1, E2. lia. }
    assert (isParameterCountError (validateParameters paramArray) = false) as Hn.
    { unfold validateParameters. rewrite E. cbv zeta.
      repeat case_match; reflexivity. }
    rewrite Hn. repeat split; try discriminate; try lia.
    intros Hv. rewrite Hv in Hn. discriminate.
Qed.

Lemma parameter_count_error_witness :
  isParameterCountError (validateParameters (tokens "1 1 3 2 11 500")) = true
  /\ isParameterCountError (validateParameters (tokens " ")) = true
  /\ isParameterCountError (validateParameters (tokens "1 1 3 2 11 500 30 5 9")) = true
  /\ isParameterCountError (validateParameters (tokens "x x x x x x x")) = false.
Proof.
  split; [| split; [| split]].
  - apply (parameter_count_error (tokens "1 1 3 2 11 500")).
    vm_compute. split; discriminate.
  - apply (parameter_count_error (tokens " ")).
    vm_compute. split; discriminate.
  - apply (parameter_count_error (tokens "1 1 3 2 11 500 30 5 9")).
    vm_compute. split; discriminate.
  - vm_compute. reflexivity.
Defined.

(** C6, as stated, fails: a pH token (or a ligand-type token) that is
    not an integer numeral is read by [parseInt] up to its first
    non-digit, and the input is accepted when that prefix is in range.
    Here the pH token is ["7.5"], whose value 7.5 is not one of 7..11,
    and the ligand-type token is ["2abc"]. *)
Lemma non_integer_token_accepted :
  let paramArray := tokens "1 1 3 2abc 7.5 500 30" in
  length paramArray = 7%nat
  /\ isIntegerNumeral (item paramArray 3) = false
  /\ isIntegerNumeral (item paramArray 4) = false
  /\ parseFloat (item paramArray 4) = 7.5%float
  /\ validateParameters paramArray = accepted.
Proof. vm_compute. repeat split. Qed.

(** C6, amended. For every sequence of 7 or 8 tokens the validator
    rejects the input whenever one of the parsed values violates its
    constraint: the ligand type (as [parseInt] reads the 4th token) is
    [NaN] or outside 0..3, the pH (as [parseInt] reads the 5th token) is
    [NaN] or outside 7..11, the volume, time or rate is [NaN] or not
    greater than 0, or one of the three concentrations is [NaN] or
    below 0. *)
Theorem out_of_range_rejected (paramArray : list jsstring) :
  length paramArray = 7%nat \/ length paramArray = 8%nat ->
  let r := convertParametersToObject paramArray in
  integerBetween 0 3 (ligandType r) = false
  \/ integerBetween 7 11 (phBsa r) = false
  \/ positive (additionVolume r) = false
  \/ positive (additionTime r) = false
  \/ positive (additionRate r) = false
  \/ nonNegative (euConcentration r) = false
  \/ nonNegative (phenanthrolineConcentration r) = false
  \/ nonNegative (ligandConcentration r) = false ->
  valid (validateParameters paramArray) = false.
Proof.
  intros Hlen r Hbad.
  rewrite (valid_when_constraints paramArray Hlen).
  fold r. unfold satisfiesConstraints.
  repeat (destruct Hbad as [-> | Hbad]);
    try rewrite Hbad; rewrite ?andb_false_r; reflexivity.
Qed.

Lemma out_of_range_rejected_witness :
  valid (validateParameters (tokens "1 1 3 4 11 500 30")) = false
  /\ valid (validateParameters (tokens "1 1 3 2 12 500 30 10")) = false
  /\ valid (validateParameters (tokens "1 1 3 2 11 0 30")) = false
  /\ valid (validateParameters (tokens "-1 1 3 2 11 500 30")) = false.
Proof.
  split; [| split; [| split]].
  - apply (out_of_range_rejected (tokens "1 1 3 4 11 500 30"));
      [left; reflexivity | left; reflexivity].
  - apply (out_of_range_rejected (tokens "1 1 3 2 12 500 30 10"));
      [right; reflexivity | right; left; reflexivity].
  - apply (out_of_range_rejected (tokens "1 1 3 2 11 0 30"));
      [left; reflexivity | right; right; left; reflexivity].
  - apply (out_of_range_rejected (tokens "-1 1 3 2 11 500 30"));
      [left; reflexivity | do 5 right; left; reflexivity].
Defined.

(** C7. For every accepted input of 7 tokens the addition rate of the
    record is the quotient (the Number division) of its addition volume
    by its addition time; for every accepted input of 8 tokens it is
    what [parseFloat] reads from the 8th token. *)
Theorem addition_rate (paramArray : list jsstring) :
  valid (validateParameters paramArray) = true ->
  let r := convertParametersToObject paramArray in
  (length paramArray = 7%nat ->
   additionRate r = (additionVolume r / additionTime r)%float)
  /\ (length paramArray = 8%nat ->
      additionRate r = parseFloat (item paramArray 7)).
Proof.
  intros _ r. subst r. unfold convertParametersToObject.
  cbn [additionRate additionVolume additionTime].
  split; intros ->; reflexivity.
Qed.

(** The two scenarios of the specification: ["1 1 3 2 11 500 30"] has
    rate 500/30, ["2 2 6 1 9 340 34 10"] has rate 10. *)
Lemma addition_rate_witness :
  additionRate (convertParametersToObject (tokens "1 1 3 2 11 500 30"))
  = (500 / 30)%float
  /\ additionRate (convertParametersToObject (tokens "2 2 6 1 9 340 34 10"))
     = 10%float.
Proof.
  split.
  - refine (eq_trans
      (proj1 (addition_rate (tokens "1 1 3 2 11 500 30") _) _) _);
      vm_compute; reflexivity.
  - refine (eq_trans
      (proj2 (addition_rate (tokens "2 2 6 1 9 340 34 10") _) _) _);
      vm_compute; reflexivity.
Defined.

(** C8. For every token array the validator accepts, the record
    [convertParametersToObject] builds from the same array satisfies all
    eight range constraints at once. *)
Theorem accepted_record_in_range (paramArray : list jsstring) :
  valid (validateParameters paramArray) = true ->
  let r := convertParametersToObject paramArray in
  nonNegative (euConcentration r) = true
  /\ nonNegative (phenanthrolineConcentration r) = true
  /\ nonNegative (ligandConcentration r) = true
  /\ (exists z, ligandType r = Some z /\ 0 <= z <= 3)
  /\ (exists z, phBsa r = Some z /\ 7 <= z <= 11)
  /\ positive (additionVolume r) = true
  /\ positive (additionTime r) = true
  /\ positive (additionRate r) = true.
Proof.
  intros Hv r.
  pose proof (valid_when_constraints paramArray (valid_length _ Hv)) as H.
  rewrite Hv in H. symmetry in H. fold r in H.
  unfold satisfiesConstraints in H.
  repeat (apply andb_prop in H as [H ?]).
  repeat split; try assumption.
  - destruct (ligandType r) as [z |]; [| discriminate].
    exists z. unfold integerBetween in *. split; [reflexivity | lia].
  - destruct (phBsa r) as [z |]; [| discriminate].
    exists z. unfold integerBetween in *. split; [reflexivity | lia].
Qed.

Lemma accepted_record_in_range_witness :
  let r := convertParametersToObject (tokens "1 1 3 2 11 500 30") in
  nonNegative (euConcentration r) = true
  /\ nonNegative (phenanthrolineConcentration r) = true
  /\ nonNegative (ligandConcentration r) = true
  /\ (exists z, ligandType r = Some z /\ 0 <= z <= 3)
  /\ (exists z, phBsa r = Some z /\ 7 <= z <= 11)
  /\ positive (additionVolume r) = true
  /\ positive (additionTime r) = true
  /\ positive (additionRate r) = true.
Proof.
  apply (accepted_record_in_range (tokens "1 1 3 2 11 500 30")).
  vm_compute. reflexivity.
Defined.

End ParameterUtilsFacts.

(** ** The prediction gateway *)

Module PredictionServiceFacts.
Import JS ParameterUtils PredictionService Scenarios.

Lemma settle_unsettled now s c :
  settled c = None -> settled (settle now s c) = Some (now, s).
Proof. unfold settle. intros ->. reflexivity. Qed.

Lemma settle_settled now s c x :
  settled c = Some x -> settle now s c = c.
Proof. unfold settle. intros ->. reflexivity. Qed.

Lemma settle_pending now s c :
  timeoutPending (settle now s c) = timeoutPending c.
Proof. unfold settle. destruct (settled c); reflexivity. Qed.

Lemma settle_child now s c : child (settle now s c) = child c.
Proof. unfold settle. destruct (settled c); reflexivity. Qed.

Lemma onClose_pending now code c : timeoutPending (onClose now code c) = false.
Proof.
  unfold onClose. case_bool_decide; rewrite settle_pending;
    destruct (child (clearTimeout c)); reflexivity.
Qed.

Lemma onClose_settled_keep now code c x :
  settled c = Some x -> settled (onClose now code c) = Some x.
Proof.
  intros H. unfold onClose.
  case_bool_decide.
  all: erewrite settle_settled; destruct (child (clearTimeout c)); cbn; eauto.
Qed.

Lemma onClose_unsettled now c :
  settled c = None ->
  settled (onClose now (Some 0) c) = Some (now, readResponse (output c)).
Proof.
  intros H. unfold onClose. rewrite bool_decide_eq_true_2 by reflexivity.
  rewrite settle_unsettled; destruct (child (clearTimeout c)); cbn; auto.
Qed.

Lemma onEvent_settled_keep now ev c x :
  settled c = Some x -> settled (onEvent now ev c) = Some x.
Proof.
  intros H. destruct ev; cbn; auto using onClose_settled_keep.
  unfold onError. erewrite settle_settled; cbn; eauto.
Qed.

Lemma onEvent_idle now ev c :
  timeoutPending c = false -> timeoutPending (onEvent now ev c) = false.
Proof.
  intros H. destruct ev; cbn; auto using onClose_pending.
  unfold onError. rewrite settle_pending. reflexivity.
Qed.

(** Once the promise is settled and the timer cleared, nothing that
    happens later changes the settlement. *)
Lemma runProcess_settled events : forall c x,
  timeoutPending c = false -> settled c = Some x ->
  settled (runProcess events c) = Some x.
Proof.
  induction events as [| [now ev] rest IH]; intros c x Hp Hs; cbn.
  - rewrite Hp. exact Hs.
  - rewrite Hp. cbn. apply IH.
    + apply onEvent_idle, Hp.
    + apply onEvent_settled_keep, Hs.
Qed.

Lemma expire_spec c :
  settled c = None ->
  settled (expire c) = Some (timeoutMs, Rejected PredictionTimeout)
  /\ child (expire c) = Killed
  /\ timeoutPending (expire c) = false.
Proof.
  intros H. unfold expire. split; [| split].
  - apply onClose_settled_keep. unfold onTimeout. apply settle_unsettled. exact H.
  - unfold onClose. case_bool_decide; rewrite settle_child;
      unfold onTimeout; rewrite !settle_child || idtac;
      cbn; unfold settle; rewrite H; reflexivity.
  - apply onClose_pending.
Qed.

Lemma onEvent_inOrder now ev c :
  inOrder c -> (timeoutPending c = true -> (now < timeoutMs)%N) ->
  inOrder (onEvent now ev c).
Proof.
  unfold inOrder. intros H Hnow.
  destruct (timeoutPending c) eqn:Hp.
  - specialize (Hnow eq_refl).
    destruct ev; cbn.
    + rewrite Hp. exact H.
    + rewrite Hp. exact H.
    + rewrite onClose_pending. unfold onClose.
      case_bool_decide;
        (rewrite settle_unsettled by (destruct (child (clearTimeout c)); exact H));
        eexists _, _; (split; [reflexivity | lia]).
    + unfold onError. rewrite settle_pending. cbn.
      rewrite settle_unsettled by exact H.
      eexists _, _; (split; [reflexivity | lia]).
  - destruct H as (t & s & Hs & Ht).
    rewrite (onEvent_idle _ _ _ Hp).
    exists t, s. split; [apply onEvent_settled_keep, Hs | exact Ht].
Qed.

Lemma runProcess_inOrder events : forall c,
  inOrder c ->
  inOrder (runProcess events c) /\ timeoutPending (runProcess events c) = false.
Proof.
  induction events as [| [now ev] rest IH]; intros c H; cbn.
  - unfold inOrder in *. destruct (timeoutPending c) eqn:Hp.
    + destruct (expire_spec c H) as (Hs & _ & Hp').
      rewrite Hp'. split; [| reflexivity].
      exists timeoutMs, (Rejected PredictionTimeout). split; [exact Hs | lia].
    + rewrite Hp. split; [exact H | reflexivity].
  - destruct (timeoutPending c && (timeoutMs <=? now)%N) eqn:E.
    + apply andb_prop in E as [Hp _]. unfold inOrder in H. rewrite Hp in H.
      destruct (expire_spec c H) as (Hs & _ & Hp').
      unfold inOrder. rewrite Hp'. split; [| reflexivity].
      exists timeoutMs, (Rejected PredictionTimeout). split; [exact Hs | lia].
    + apply IH. apply onEvent_inOrder; [exact H |].
      intros Hp. rewrite Hp in E. cbn in E. apply N.leb_gt in E. exact E.
Qed.

(** Every call settles, and does so within [timeoutMs] of the spawn. *)
Lemma call_settles (predictor : ParameterRecord -> ProcessRun)
    (parameters : ParameterRecord) :
  exists now s,
    settled (makeModelPrediction predictor parameters) = Some (now, s)
    /\ (now <= timeoutMs)%N.
Proof.
  unfold makeModelPrediction.
  destruct (runProcess_inOrder (predictor parameters) started) as [H Hp].
  - reflexivity.
  - unfold inOrder in H. rewrite Hp in H. exact H.
Qed.

(** A process still running at the deadline is killed and the call is
    rejected with the timeout error, at the deadline. *)
Lemma runProcess_timeout events : forall c,
  timeoutPending c = true -> settled c = None ->
  stillRunningAt timeoutMs events = true ->
  settled (runProcess events c) = Some (timeoutMs, Rejected PredictionTimeout)
  /\ child (runProcess events c) = Killed.
Proof.
  induction events as [| [now ev] rest IH]; intros c Hp Hs Hrun; cbn.
  - rewrite Hp. destruct (expire_spec c Hs) as (? & ? & _). auto.
  - rewrite Hp. cbn in *. destruct (timeoutMs <=? now)%N eqn:E.
    + destruct (expire_spec c Hs) as (? & ? & _). auto.
    + cbn in Hrun. apply andb_prop in Hrun as [Hd Hrun].
      apply IH; [| | exact Hrun]; destruct ev; try discriminate; cbn; assumption.
Qed.

(** A process that writes its output and exits with code 0 before the
    deadline: the call settles, at the exit, with what [readResponse]
    makes of the output. *)
Lemma runProcess_response events : forall c now rest,
  timeoutPending c = true -> settled c = None ->
  writesBefore timeoutMs events = true -> (now < timeoutMs)%N ->
  settled (runProcess (events ++ (now, Close (Some 0)) :: rest) c)
  = Some (now, readResponse (output c ++ stdoutOf events)).
Proof.
  induction events as [| [t ev] evs IH]; intros c now rest Hp Hs Hw Hnow; cbn.
  - rewrite Hp. cbn. replace (timeoutMs <=? now)%N with false
      by (symmetry; apply N.leb_gt; exact Hnow).
    rewrite app_nil_r.
    apply runProcess_settled; [apply onClose_pending |].
    apply onClose_unsettled, Hs.
  - cbn in Hw. apply andb_prop in Hw as [Hev Hw].
    apply andb_prop in Hev as [Hd Ht]. cbn in Hd, Ht.
    rewrite Hp. cbn. replace (timeoutMs <=? t)%N with false
      by (symmetry; apply N.leb_gt, N.ltb_lt; exact Ht).
    destruct ev; try discriminate; cbn.
    + rewrite IH by (cbn; assumption). cbn. rewrite app_assoc. reflexivity.
    + rewrite IH by (cbn; assumption). reflexivity.
Qed.

(** C9, as stated, fails: a response that is valid JSON is not checked
    for the fields [size], [pdi], [sizeConfidence] and [pdiConfidence],
    and an [error] field whose value is falsy (here the empty string)
    is not taken for a model error. Both calls resolve. *)
Lemma incomplete_response_resolves :
  let bare := [(100%N, StdoutData (js "{}")); (110%N, Close (Some 0))] in
  let empty_error :=
    [(100%N, StdoutData (jsq "{'error': ''}")); (110%N, Close (Some 0))] in
  settled (runProcess bare started) = Some (110%N, Resolved (JObj []))
  /\ hasRequiredFields (JObj []) = false
  /\ settled (runProcess empty_error started)
     = Some (110%N, Resolved (JObj [(js "error", JStr [])]))
  /\ getProperty (JObj [(js "error", JStr [])]) (js "error") = Some (JStr []).
Proof. vm_compute. repeat split. Qed.

(** C9, amended. When the predictor writes its response and exits with
    code 0 before the deadline, the call is rejected with the parse
    error ('Invalid prediction response') if the output is not valid
    JSON or is the JSON value [null]; it is rejected with the model
    error carrying the value of the [error] field if the parsed value
    has an [error] field that is truthy; and it resolves with the parsed
    value in every other case, whatever fields that value has. *)
Theorem response_settlement (events rest : ProcessRun) (now : N) :
  writesBefore timeoutMs events = true -> (now < timeoutMs)%N ->
  settled (runProcess (events ++ (now, Close (Some 0)) :: rest) started)
  = Some (now,
          match JSON_parse (stdoutOf events) with
          | None => Rejected InvalidResponse
          | Some JNull => Rejected InvalidResponse
          | Some result =>
              match getProperty result (js "error") with
              | Some e => if truthy (Some e) then Rejected (ModelError e)
                          else Resolved result
              | None => Resolved result
              end
          end).
Proof.
  intros Hw Hnow.
  rewrite runProcess_response by (try reflexivity; assumption).
  cbn [output started app]. unfold readResponse.
  destruct (JSON_parse (stdoutOf events)) as [[] |]; try reflexivity.
  destruct (getProperty (JObj props) (js "error")) as [e |]; reflexivity.
Qed.

Lemma response_settlement_witness :
  settled (runProcess
             [(40%N, StdoutData (jsq "{'size': 120.5, "));
              (45%N, StderrData (js "warning"));
              (50%N, StdoutData (jsq "'pdi': 0.25}"));
              (60%N, Close (Some 0))] started)
  = Some (60%N,
          Resolved (JObj [(js "size", JNum 120.5); (js "pdi", JNum 0.25)]))
  /\ settled (runProcess
                [(40%N, StdoutData (jsq "{'error': 'no model'}"));
                 (60%N, Close (Some 0))] started)
     = Some (60%N, Rejected (ModelError (JStr (js "no model"))))
  /\ settled (runProcess
                [(40%N, StdoutData (js "Traceback")); (60%N, Close (Some 0))]
                started)
     = Some (60%N, Rejected InvalidResponse).
Proof.
  split; [| split].
  - refine (eq_trans (response_settlement
      [(40%N, StdoutData (jsq "{'size': 120.5, "));
       (45%N, StderrData (js "warning"));
       (50%N, StdoutData (jsq "'pdi': 0.25}"))] [] 60 _ _) _);
      vm_compute; reflexivity.
  - refine (eq_trans (response_settlement
      [(40%N, StdoutData (jsq "{'error': 'no model'}"))] [] 60 _ _) _);
      vm_compute; reflexivity.
  - refine (eq_trans (response_settlement
      [(40%N, StdoutData (js "Traceback"))] [] 60 _ _) _);
      vm_compute; reflexivity.
Defined.

End PredictionServiceFacts.

(** ** The dialog controllers *)

Module BotFacts.
Import JS ParameterUtils PredictionService Bot Scenarios JSFacts
  PredictionServiceFacts.

(** Unfolding of the handler monad. *)
Ltac run :=
  unfold after, predictionState_get, predictionState_set,
    predictionState_delete, addResultState_get, addResultState_set,
    addResultState_delete, Experiment_findOne, Experiment_save,
    Experiment_create, formatExperimentForDisplay, tryCatch, throw,
    sendMessage, editMessageText, setPredictionState, setAddResultState,
    setExperiments, get, mbind, M_bind, mret, M_ret;
  cbn [fst snd predictionState addResultState experiments outbox sent].

(** C2. In the Result-Entry flow, for every message taken as an entry
    (any text but the cancel command, which is dealt with before the
    state is looked at): in [awaiting_actual_size], a text that does not
    parse as a Number greater than 0 gets the re-prompt and leaves the
    world as it is, session included; a text that parses as a Number
    greater than 0 stores that size in the session and moves it to
    [awaiting_actual_pdi]; in [awaiting_actual_pdi], a text that does
    not parse as a Number at least 0 gets the re-prompt and leaves the
    world as it is. Every text the listener hands to the handler is such
    an entry ([delivered_is_entry]). *)
Theorem actual_values_entry (w : World) (msg : Message) (s : AddResultSession) :
  addResultState w !! from_id msg = Some s ->
  noText msg = false ->
  toLowerCase (msgText msg) <> cancelCommand ->
  let x := parseFloat (trim (msgText msg)) in
  let w' := after (handleAddResultResponse msg) w in
  (state s = awaiting_actual_size -> positive x = false ->
   w' = sent w [SendMessage (chat_id msg) InvalidSize])
  /\ (state s = awaiting_actual_size -> positive x = true ->
      addResultState w'
      = <[from_id msg := {| state := awaiting_actual_pdi;
                            experimentId := experimentId s;
                            actualSize := Some x |}]> (addResultState w)
      /\ outbox w' = outbox w ++ [SendMessage (chat_id msg) (AskActualPdI x)]
      /\ experiments w' = experiments w
      /\ predictionState w' = predictionState w)
  /\ (state s = awaiting_actual_pdi -> nonNegative x = false ->
      w' = sent w [SendMessage (chat_id msg) InvalidPdI]).
Proof.
  intros Hs Htext Hcancel x w'. subst w'.
  unfold handleAddResultResponse. rewrite Htext.
  run. rewrite Hs.
  rewrite bool_decide_eq_false_2 by exact Hcancel.
  unfold positive, nonNegative.
  rewrite <- not_non_positive, <- not_negative. fold x.
  split; [| split]; intros -> Hx.
  - apply negb_false_iff in Hx. rewrite Hx. reflexivity.
  - apply negb_true_iff in Hx. rewrite Hx. cbn. auto.
  - apply negb_false_iff in Hx. rewrite Hx. reflexivity.
Qed.

Lemma actual_values_entry_witness :
  after (handleAddResultResponse (message (js "abc")))
    (entering awaiting_actual_size None)
  = sent (entering awaiting_actual_size None) [SendMessage alice InvalidSize]
  /\ addResultState
       (after (handleAddResultResponse (message (js " 118 ")))
          (entering awaiting_actual_size None)) !! alice
     = Some {| state := awaiting_actual_pdi; experimentId := js "7f3a";
               actualSize := Some 118%float |}
  /\ after (handleAddResultResponse (message (js "-0.5")))
       (entering awaiting_actual_pdi (Some 118%float))
     = sent (entering awaiting_actual_pdi (Some 118%float))
         [SendMessage alice InvalidPdI].
Proof.
  split; [| split].
  - apply (actual_values_entry (entering awaiting_actual_size None)
             (message (js "abc")) _ eq_refl eq_refl);
      [vm_compute; discriminate | reflexivity | reflexivity].
  - pose proof (actual_values_entry (entering awaiting_actual_size None)
                  (message (js " 118 ")) _ eq_refl eq_refl) as H.
    destruct H as (_ & H & _); [vm_compute; discriminate |].
    destruct (H eq_refl eq_refl) as (-> & _).
    vm_compute. reflexivity.
  - apply (actual_values_entry (entering awaiting_actual_pdi (Some 118%float))
             (message (js "-0.5")) _ eq_refl eq_refl);
      [vm_compute; discriminate | reflexivity | reflexivity].
Defined.

(** *** The Prediction flow *)

Lemma handlePrediction_invalid (env : Env) (w : World) (msg : Message) :
  predictionState w !! from_id msg = Some awaiting_parameters ->
  noText msg = false ->
  toLowerCase (msgText msg) <> cancelCommand ->
  valid (validateParameters (paramArrayOf msg)) = false ->
  after (handlePredictionResponse env msg) w
  = sent w [SendMessage (chat_id msg)
              (ParameterError (error (validateParameters (paramArrayOf msg))))].
Proof.
  intros Hs Htext Hcancel Hv.
  unfold handlePredictionResponse. rewrite Htext.
  run. rewrite Hs.
  rewrite bool_decide_eq_false_2 by exact Hcancel.
  fold (paramArrayOf msg). rewrite Hv. reflexivity.
Qed.

Lemma handlePrediction_rejected (env : Env) (w : World) (msg : Message)
    (now : N) (reason : PredictionError) :
  predictionState w !! from_id msg = Some awaiting_parameters ->
  noText msg = false ->
  toLowerCase (msgText msg) <> cancelCommand ->
  valid (validateParameters (paramArrayOf msg)) = true ->
  settled (makeModelPrediction (predictor env)
             (convertParametersToObject (paramArrayOf msg)))
  = Some (now, Rejected reason) ->
  after (handlePredictionResponse env msg) w
  = predictionCleared w (from_id msg)
      [SendMessage (chat_id msg) Processing;
       SendMessage (chat_id msg) PredictionFailed].
Proof.
  intros Hs Htext Hcancel Hv Hcall.
  unfold handlePredictionResponse. rewrite Htext.
  run. rewrite Hs.
  rewrite bool_decide_eq_false_2 by exact Hcancel.
  fold (paramArrayOf msg). rewrite Hv.
  unfold awaitPrediction. rewrite Hcall.
  run. unfold predictionCleared, sent. cbn. rewrite <- app_assoc. reflexivity.
Qed.

(** C1. In the Prediction flow, for a free-text message (any text but
    the cancel command) of a user whose session is in
    [awaiting_parameters]: when the text fails validation, the
    controller sends the error message and nothing else changes, so the
    session remains in [awaiting_parameters]; when the text is valid
    and the call of the gateway fails (whatever the reason), the
    controller sends the processing notice and the generic failure
    message and clears the session: the user has no session left, and
    no experiment is stored. *)
Theorem prediction_failures (env : Env) (w : World) (msg : Message) :
  predictionState w !! from_id msg = Some awaiting_parameters ->
  noText msg = false ->
  toLowerCase (msgText msg) <> cancelCommand ->
  let paramArray := map trim (splitWhitespace (trim (msgText msg))) in
  let w' := after (handlePredictionResponse env msg) w in
  (valid (validateParameters paramArray) = false ->
   w' = sent w [SendMessage (chat_id msg)
                  (ParameterError (error (validateParameters paramArray)))]
   /\ predictionState w' !! from_id msg = Some awaiting_parameters)
  /\ (valid (validateParameters paramArray) = true ->
      forall now reason,
        settled (makeModelPrediction (predictor env)
                   (convertParametersToObject paramArray))
        = Some (now, Rejected reason) ->
        outbox w' = outbox w ++ [SendMessage (chat_id msg) Processing;
                                 SendMessage (chat_id msg) PredictionFailed]
        /\ predictionState w' !! from_id msg = None
        /\ experiments w' = experiments w).
Proof.
  intros Hs Htext Hcancel paramArray w'. subst w'. split.
  - intros Hv.
    rewrite (handlePrediction_invalid env w msg Hs Htext Hcancel Hv).
    split; [reflexivity | exact Hs].
  - intros Hv now reason Hcall.
    rewrite (handlePrediction_rejected env w msg now reason Hs Htext Hcancel
               Hv Hcall).
    cbn. split; [reflexivity | split; [apply lookup_delete_eq | reflexivity]].
Qed.

Lemma prediction_failures_witness :
  after (handlePredictionResponse (exiting 1 []) (message (js "1 1 3 2 12 500 30")))
    predicting
  = sent predicting [SendMessage alice (ParameterError (Some PhBsaError))]
  /\ predictionState
       (after (handlePredictionResponse (exiting 1 [])
                 (message (js "1 1 3 2 11 500 30"))) predicting) !! alice
     = None.
Proof.
  split.
  - pose proof (prediction_failures (exiting 1 [])
                  predicting (message (js "1 1 3 2 12 500 30")) eq_refl eq_refl)
      as H.
    destruct H as [H _]; [vm_compute; discriminate |].
    exact (proj1 (H eq_refl)).
  - pose proof (prediction_failures (exiting 1 [])
                  predicting (message (js "1 1 3 2 11 500 30")) eq_refl eq_refl)
      as H.
    destruct H as [_ H]; [vm_compute; discriminate |].
    exact (proj1 (proj2 (H eq_refl 2000%N (ProcessExit (Some 1) []) eq_refl))).
Defined.

(** *** The Result-Entry flow *)

Lemma yes_is_not_cancel : yes <> cancelCommand.
Proof. discriminate. Qed.

(** C3, as stated, fails on the exactness of the token: the text is
    lower-cased before it is compared, so the three distinct texts
    ["Да"], ["да"] and ["ДА"] all confirm, and each takes the session
    of [entering awaiting_overwrite_confirmation None] back to
    [awaiting_actual_size]. *)
Lemma confirmation_ignores_case :
  let w := entering awaiting_overwrite_confirmation None in
  let reentered := Some {| state := awaiting_actual_size;
                           experimentId := js "7f3a"; actualSize := None |} in
  addResultState (after (handleAddResultResponse (message Da)) w) !! alice
  = reentered
  /\ addResultState (after (handleAddResultResponse (message da)) w) !! alice
     = reentered
  /\ addResultState (after (handleAddResultResponse (message DA)) w) !! alice
     = reentered
  /\ Da <> da /\ Da <> DA /\ da <> DA.
Proof. vm_compute. repeat split; discriminate. Qed.

(** C3, amended. When the Result-Entry flow is entered for an experiment
    whose actual size and actual PdI are both present, the session is
    put in [awaiting_overwrite_confirmation] and the confirmation is
    asked for. In that state no text changes the stored experiments; a
    text whose lower-casing is ["да"] (the confirmation, compared
    without regard to case) takes the session to [awaiting_actual_size]
    while the experiment is still stored; every other text clears the
    session. *)
Theorem overwrite_confirmation :
  (forall (w : World) (msg : Message) (id : jsstring) i e,
      Experiment.findOne id (from_id msg) (experiments w) = Some (i, e) ->
      hasActualResults e = true ->
      after (startAddResult msg id) w
      = {| predictionState := predictionState w;
           addResultState :=
             <[from_id msg := {| state := awaiting_overwrite_confirmation;
                                 experimentId := id; actualSize := None |}]>
               (addResultState w);
           experiments := experiments w;
           outbox := outbox w ++ [SendMessage (chat_id msg) OverwritePrompt] |})
  /\ (forall (w : World) (msg : Message) (s : AddResultSession),
        addResultState w !! from_id msg = Some s ->
        state s = awaiting_overwrite_confirmation ->
        noText msg = false ->
        let w' := after (handleAddResultResponse msg) w in
        experiments w' = experiments w
        /\ (toLowerCase (msgText msg) = yes ->
            forall i e,
              Experiment.findOne (experimentId s) (from_id msg) (experiments w)
              = Some (i, e) ->
              addResultState w'
              = <[from_id msg := {| state := awaiting_actual_size;
                                    experimentId := experimentId s;
                                    actualSize := actualSize s |}]>
                  (addResultState w))
        /\ (toLowerCase (msgText msg) <> yes ->
            addResultState w' = delete (from_id msg) (addResultState w))).
Proof.
  split.
  - intros w msg id i e Hfind Hres.
    unfold startAddResult. run. rewrite Hfind, Hres. reflexivity.
  - intros w msg s Hs Hst Htext w'. subst w'.
    unfold handleAddResultResponse. rewrite Htext.
    run. rewrite Hs, Hst.
    case_bool_decide as Hcancel.
    + cbn. split; [reflexivity | split].
      * intros Hyes. rewrite Hyes in Hcancel.
        destruct (yes_is_not_cancel Hcancel).
      * intros _. reflexivity.
    + case_bool_decide as Hyes.
      * destruct (Experiment.findOne (experimentId s) (from_id msg)
                    (experiments w)) as [[i e] |] eqn:Hfind; cbn.
        -- split; [reflexivity | split].
           ++ intros _ i' e' _. reflexivity.
           ++ intros Hno. destruct (Hno Hyes).
        -- split; [reflexivity | split].
           ++ intros _ i' e' Hsome. discriminate.
           ++ intros Hno. destruct (Hno Hyes).
      * cbn. split; [reflexivity | split].
        -- intros Hy. destruct (Hyes Hy).
        -- intros _. reflexivity.
Qed.

Lemma overwrite_confirmation_witness :
  addResultState
    (after (startAddResult (message (js "/add_result 7f3a")) (js "7f3a"))
       (entering awaiting_actual_size None)) !! alice
  = Some {| state := awaiting_overwrite_confirmation;
            experimentId := js "7f3a"; actualSize := None |}
  /\ addResultState
       (after (handleAddResultResponse (message (js "no")))
          (entering awaiting_overwrite_confirmation None)) !! alice
     = None.
Proof.
  split.
  - rewrite (proj1 overwrite_confirmation
               (entering awaiting_actual_size None)
               (message (js "/add_result 7f3a")) (js "7f3a") 0%nat measured
               eq_refl eq_refl).
    reflexivity.
  - destruct (proj2 overwrite_confirmation
                (entering awaiting_overwrite_confirmation None)
                (message (js "no")) _ eq_refl eq_refl eq_refl) as (_ & _ & H).
    rewrite H by (vm_compute; discriminate). reflexivity.
Defined.

(** What the handler does with the cancel command when it is called
    with it: the session is cleared and the cancellation acknowledged. *)
Lemma handleAddResult_cancel (w : World) (msg : Message) (s : AddResultSession) :
  addResultState w !! from_id msg = Some s ->
  toLowerCase (msgText msg) = cancelCommand ->
  after (handleAddResultResponse msg) w
  = {| predictionState := predictionState w;
       addResultState := delete (from_id msg) (addResultState w);
       experiments := experiments w;
       outbox := outbox w ++ [SendMessage (chat_id msg) OperationCancelled] |}.
Proof.
  intros Hs Hc.
  unfold handleAddResultResponse.
  assert (noText msg = false) as ->.
  { unfold noText, msgText in *. destruct (text msg) as [[| c r] |];
      try discriminate; reflexivity. }
  run. rewrite Hs. rewrite bool_decide_eq_true_2 by exact Hc. reflexivity.
Qed.

(** Without a session the handler ignores the message. *)
Lemma handleAddResult_no_session (w : World) (msg : Message) :
  addResultState w !! from_id msg = None ->
  handleAddResultResponse msg w = (Normal tt, w).
Proof.
  intros Hs. unfold handleAddResultResponse.
  destruct (noText msg); [reflexivity |].
  run. rewrite Hs. reflexivity.
Qed.

(** The listener of [bot/index.js] hands no text that starts with ["/"]
    to the handlers: the cancel command, in any spelling, never reaches
    them, and the world stays as it is. *)
Lemma onMessage_command (env : Env) (w : World) (msg : Message) :
  startsWith (js "/") (msgText msg) = true ->
  onMessage env msg w = (Normal tt, w).
Proof.
  intros H. unfold onMessage. rewrite H, andb_false_r. reflexivity.
Qed.

Lemma onMessage_cancel (env : Env) (w : World) (msg : Message) :
  toLowerCase (msgText msg) = cancelCommand ->
  onMessage env msg w = (Normal tt, w).
Proof.
  intros H. apply onMessage_command, cancel_starts_with_slash, H.
Qed.

(** Every text the listener hands to the handlers is present and is
    not the cancel command: the hypotheses under which the handlers are
    studied above hold for every message they receive. *)
Lemma delivered_is_entry (msg : Message) :
  negb (noText msg) && negb (startsWith (js "/") (msgText msg)) = true ->
  noText msg = false /\ toLowerCase (msgText msg) <> cancelCommand.
Proof.
  intros H. apply andb_prop in H as [H1 H2].
  apply negb_true_iff in H1, H2. split; [exact H1 |].
  intros Hc. apply cancel_starts_with_slash in Hc. congruence.
Qed.

(** Without a session the prediction handler ignores the message, so
    for a user who is in the Result-Entry flow only, the listener is
    [handleAddResultResponse] on every text it hands over. *)
Lemma handlePrediction_no_session (env : Env) (w : World) (msg : Message) :
  predictionState w !! from_id msg = None ->
  handlePredictionResponse env msg w = (Normal tt, w).
Proof.
  intros Hs. unfold handlePredictionResponse.
  destruct (noText msg); [reflexivity |].
  run. rewrite Hs. reflexivity.
Qed.

Lemma onMessage_result_entry (env : Env) (w : World) (msg : Message) :
  predictionState w !! from_id msg = None ->
  negb (noText msg) && negb (startsWith (js "/") (msgText msg)) = true ->
  onMessage env msg w = handleAddResultResponse msg w.
Proof.
  intros Hs Hd. unfold onMessage. rewrite Hd.
  unfold mbind, M_bind. rewrite handlePrediction_no_session by exact Hs.
  reflexivity.
Qed.

(** C4, on the code: a user whose Result-Entry session is in
    [awaiting_actual_pdi] sends ["/cancel"]. The listener does not pass
    the text on, so nothing changes and the session is still there; the
    plain text ["0.5"] sent next is not ignored: it is taken as the
    PdI, the experiment is overwritten and the summary is sent. *)
Theorem cancel_command_not_delivered :
  let w := entering awaiting_actual_pdi (Some 118%float) in
  let w1 := after (onMessage hanging (message (js "/cancel"))) w in
  let w2 := after (onMessage hanging (message (js "0.75"))) w1 in
  w1 = w
  /\ addResultState w1 !! alice
     = Some {| state := awaiting_actual_pdi; experimentId := js "7f3a";
               actualSize := Some 118%float |}
  /\ Experiment.actualPdI <$> experiments w1 !! 0%nat = Some (Some 0.5%float)
  /\ Experiment.actualPdI <$> experiments w2 !! 0%nat = Some (Some 0.75%float)
  /\ outbox w1 = []
  /\ (exists e sizeDiff pdiDiff,
        outbox w2 = [SendMessage alice (ResultsSaved e sizeDiff pdiDiff)])
  /\ addResultState w2 !! alice = None.
Proof. vm_compute. repeat split. eexists _, _, _. reflexivity. Qed.

(** C10. Every call of the gateway settles within [timeoutMs] (15000 ms)
    of the spawn. When the predictor is still running at that deadline,
    it is killed and the call is rejected with the timeout error, at the
    deadline; in the Prediction flow the controller then sends the
    generic failure message and clears the session of the user. *)
Theorem prediction_timeout :
  timeoutMs = 15000%N
  /\ (forall (predictor : ParameterRecord -> ProcessRun)
             (parameters : ParameterRecord),
        exists now s,
          settled (makeModelPrediction predictor parameters) = Some (now, s)
          /\ (now <= timeoutMs)%N)
  /\ (forall (env : Env) (w : World) (msg : Message),
        predictionState w !! from_id msg = Some awaiting_parameters ->
        noText msg = false ->
        toLowerCase (msgText msg) <> cancelCommand ->
        let paramArray := map trim (splitWhitespace (trim (msgText msg))) in
        let parameters := convertParametersToObject paramArray in
        valid (validateParameters paramArray) = true ->
        stillRunningAt timeoutMs (predictor env parameters) = true ->
        let call := makeModelPrediction (predictor env) parameters in
        let w' := after (handlePredictionResponse env msg) w in
        settled call = Some (timeoutMs, Rejected PredictionTimeout)
        /\ child call = Killed
        /\ predictionState w' !! from_id msg = None
        /\ outbox w' = outbox w ++ [SendMessage (chat_id msg) Processing;
                                    SendMessage (chat_id msg) PredictionFailed]).
Proof.
  split; [reflexivity | split].
  - apply call_settles.
  - intros env w msg Hs Htext Hcancel paramArray parameters Hv Hrun call w'.
    destruct (runProcess_timeout (predictor env parameters) started
                eq_refl eq_refl Hrun) as [Hcall Hchild].
    split; [exact Hcall | split; [exact Hchild |]].
    subst w'.
    rewrite (handlePrediction_rejected env w msg _ _ Hs Htext Hcancel Hv Hcall).
    cbn. split; [apply lookup_delete_eq | reflexivity].
Qed.

Lemma prediction_timeout_witness :
  let msg := message (js "1 1 3 2 11 500 30") in
  let call := makeModelPrediction (predictor hanging)
                (convertParametersToObject (tokens "1 1 3 2 11 500 30")) in
  settled call = Some (15000%N, Rejected PredictionTimeout)
  /\ child call = Killed
  /\ predictionState (after (handlePredictionResponse hanging msg) predicting)
       !! alice = None
  /\ outbox (after (handlePredictionResponse hanging msg) predicting)
     = [SendMessage alice Processing; SendMessage alice PredictionFailed].
Proof.
  apply (proj2 (proj2 prediction_timeout) hanging predicting
           (message (js "1 1 3 2 11 500 30")) eq_refl eq_refl).
  - vm_compute. discriminate.
  - vm_compute. reflexivity.
  - vm_compute. reflexivity.
Defined.

(** The flows run to their end on the sample situations: a prediction
    is stored and reported, and the two entries of the Result-Entry
    flow overwrite the actual values of the experiment. *)
Example prediction_completes :
  let env := exiting 0 (jsq "{'size': 120.5, 'pdi': 0.25, 'sizeConfidence': 0.5, 'pdiConfidence': 0.75}") in
  let w := after (handlePredictionResponse env (message (js "1 1 3 2 11 500 30")))
             predicting in
  predictionState w !! alice = None
  /\ (Experiment.experimentId <$> experiments w) = [js "81bc"]
  /\ (Experiment.predictedSize <$> experiments w) = [120.5%float]
  /\ outbox w
     = [SendMessage alice Processing;
        EditMessageText alice 0
          (PredictionResult
             (convertParametersToObject (tokens "1 1 3 2 11 500 30"))
             120.5 0.25 (Some (JNum 0.5)) (Some (JNum 0.75)) (js "81bc"))].
Proof. vm_compute. repeat split. Qed.

Example result_entry_completes :
  let w1 := after (onMessage hanging (message Da))
              (entering awaiting_overwrite_confirmation None) in
  let w2 := after (onMessage hanging (message (js "125.5"))) w1 in
  let w3 := after (onMessage hanging (message (js "0.125"))) w2 in
  (state <$> addResultState w1 !! alice) = Some awaiting_actual_size
  /\ (state <$> addResultState w2 !! alice) = Some awaiting_actual_pdi
  /\ addResultState w3 !! alice = None
  /\ (Experiment.actualSize <$> experiments w3) = [Some 125.5%float]
  /\ (Experiment.actualPdI <$> experiments w3) = [Some 0.125%float].
Proof. vm_compute. repeat split. Qed.

(** *** Invariants of the session store *)

Lemma findFrom_app (t : Experiment.Table) : forall k id user r x,
  Experiment.findFrom k id user t = Some x ->
  Experiment.findFrom k id user (t ++ [r]) = Some x.
Proof.
  induction t as [| a t IH]; intros k id user r x H; cbn in *.
  - discriminate.
  - destruct (bool_decide (Experiment.experimentId a = id)
              && bool_decide (Experiment.userId a = user)); [exact H |].
    apply IH, H.
Qed.

Lemma findFrom_index (t : Experiment.Table) : forall k id user i e,
  Experiment.findFrom k id user t = Some (i, e) ->
  (k <= i)%nat /\ t !! (i - k)%nat = Some e
  /\ Experiment.experimentId e = id /\ Experiment.userId e = user.
Proof.
  induction t as [| a t IH]; intros k id user i e H; cbn in *.
  - discriminate.
  - destruct (bool_decide (Experiment.experimentId a = id)
              && bool_decide (Experiment.userId a = user)) eqn:E.
    + injection H as <- <-. apply andb_prop in E as [E1 E2].
      apply bool_decide_eq_true in E1, E2.
      rewrite Nat.sub_diag. auto.
    + apply IH in H as (Hk & Hl & Hid & Hu).
      split; [lia |].
      replace (i - k)%nat with (S (i - S k)) by lia. auto.
Qed.

(** Saving a row in place of one with the same identifier and user keeps
    every experiment findable. *)
Lemma findFrom_insert (t : Experiment.Table) : forall k n id user e e',
  t !! n = Some e ->
  Experiment.experimentId e' = Experiment.experimentId e ->
  Experiment.userId e' = Experiment.userId e ->
  is_Some (Experiment.findFrom k id user t) ->
  is_Some (Experiment.findFrom k id user (<[n := e']> t)).
Proof.
  induction t as [| a t IH]; intros k n id user e e' Hn Hid Hu H.
  - discriminate.
  - destruct n as [| n]; cbn in *.
    + injection Hn as ->. rewrite Hid, Hu.
      destruct (bool_decide (Experiment.experimentId e = id)
                && bool_decide (Experiment.userId e = user)); [eauto | exact H].
    + destruct (bool_decide (Experiment.experimentId a = id)
                && bool_decide (Experiment.userId a = user)); [exact H |].
      eapply IH; eauto.
Qed.

(** The prediction handler leaves the Result-Entry sessions alone and
    at most adds one experiment. *)
Lemma handlePrediction_frame (env : Env) (w : World) (msg : Message) :
  let w' := after (handlePredictionResponse env msg) w in
  addResultState w' = addResultState w
  /\ (experiments w' = experiments w
      \/ exists r, experiments w' = experiments w ++ [r]).
Proof.
  unfold handlePredictionResponse.
  destruct (noText msg); [cbn; auto |].
  run. destruct (predictionState w !! from_id msg) as [[] |]; [| cbn; auto].
  case_bool_decide; [cbn; auto |].
  destruct (valid _); cbn; [| auto].
  unfold awaitPrediction.
  destruct (settled _) as [[now [result | reason]] |]; run; [| auto | auto].
  unfold storeAndReport.
  destruct (getProperty result (js "size")) as [[] |]; run; auto.
  destruct (getProperty result (js "pdi")) as [[] |]; run; auto.
  unfold Experiment.create. run. eauto.
Qed.

Lemma sessionsSound_frame (w w' : World) :
  addResultState w' = addResultState w ->
  (experiments w' = experiments w
   \/ exists r, experiments w' = experiments w ++ [r]) ->
  sessionsSound w -> sessionsSound w'.
Proof.
  intros Ha He H u s Hs. rewrite Ha in Hs.
  destruct (H u s Hs) as [[x Hx] Hsize]. split; [| exact Hsize].
  destruct He as [-> | [r ->]]; [eauto |].
  exists x. apply findFrom_app, Hx.
Qed.

Lemma sessionsSound_delete (w w' : World) (userId : Z) :
  addResultState w' = delete userId (addResultState w) ->
  experiments w' = experiments w ->
  sessionsSound w -> sessionsSound w'.
Proof.
  intros Ha He H u s Hs. rewrite Ha in Hs. rewrite He.
  apply lookup_delete_Some in Hs as [_ Hs]. exact (H u s Hs).
Qed.

Lemma sessionsSound_insert (w w' : World) (userId : Z) (s : AddResultSession) :
  addResultState w' = <[userId := s]> (addResultState w) ->
  experiments w' = experiments w ->
  is_Some (Experiment.findOne (experimentId s) userId (experiments w)) ->
  (state s = awaiting_actual_pdi -> is_Some (actualSize s)) ->
  sessionsSound w -> sessionsSound w'.
Proof.
  intros Ha He Hfind Hsize H u s' Hs. rewrite Ha in Hs. rewrite He.
  destruct (decide (userId = u)) as [<- | Hne].
  - rewrite lookup_insert_eq in Hs. injection Hs as <-. auto.
  - rewrite lookup_insert_ne in Hs by exact Hne. exact (H u s' Hs).
Qed.

Lemma handleAddResult_sound (w : World) (msg : Message) :
  sessionsSound w -> sessionsSound (after (handleAddResultResponse msg) w).
Proof.
  intros H. unfold handleAddResultResponse.
  destruct (noText msg); [exact H |].
  run. destruct (addResultState w !! from_id msg) as [s |] eqn:Hs; [| exact H].
  destruct (H _ _ Hs) as [[[i e] Hfind] Hsize].
  case_bool_decide.
  { eapply sessionsSound_delete; [| | exact H]; reflexivity. }
  destruct (state s) eqn:Hst.
  - case_bool_decide.
    + rewrite Hfind. cbn.
      eapply sessionsSound_insert; [reflexivity | reflexivity | | | exact H]; cbn.
      * eauto.
      * discriminate.
    + eapply sessionsSound_delete; [| | exact H]; reflexivity.
  - destruct (isNaN _ || _).
    + eapply sessionsSound_frame; [| | exact H]; cbn; auto.
    + eapply sessionsSound_insert; [reflexivity | reflexivity | | | exact H]; cbn.
      * eauto.
      * eauto.
  - destruct (isNaN _ || _).
    + eapply sessionsSound_frame; [| | exact H]; cbn; auto.
    + unfold saveResults. run. rewrite Hfind. run.
      destruct (Hsize eq_refl) as [size Hsz]. rewrite Hsz. cbn.
      intros u s' Hs'. cbn in Hs'.
      apply lookup_delete_Some in Hs' as [_ Hs'].
      destruct (H u s' Hs') as [Hf' Hsize']. split; [| exact Hsize'].
      cbn. unfold Experiment.save, Experiment.findOne in *.
      apply findFrom_index in Hfind as (_ & Hl & _ & _).
      rewrite Nat.sub_0_r in Hl.
      eapply findFrom_insert; eauto.
Qed.

(** The invariant holds in every world the bot can get to. In
    particular the last case of [saveResults], a session waiting for
    the PdI without a size, does not arise, and a confirmation in
    [awaiting_overwrite_confirmation] finds its experiment. *)
Lemma step_sound (w w' : World) :
  Step w w' -> sessionsSound w -> sessionsSound w'.
Proof.
  intros [msg w0 | msg id w0 | env msg w0] H.
  - eapply sessionsSound_frame; [| | exact H]; cbn; auto.
  - unfold startAddResult. run.
    destruct (Experiment.findOne id (from_id msg) (experiments w0))
      as [[i e] |] eqn:Hfind; cbn.
    + destruct (hasActualResults e); cbn;
        (eapply sessionsSound_insert;
         [reflexivity | reflexivity | cbn; rewrite Hfind; eauto
         | cbn; discriminate | exact H]).
    + eapply sessionsSound_frame; [| | exact H]; cbn; auto.
  - unfold onMessage.
    destruct (negb (noText msg) && _); [| exact H].
    unfold after, mbind, M_bind.
    pose proof (handlePrediction_frame env w0 msg) as [Ha He].
    unfold after in Ha, He.
    destruct (handlePredictionResponse env msg w0) as [[[] | ex] w1]; cbn in *.
    + apply (handleAddResult_sound w1 msg).
      eapply sessionsSound_frame; eauto.
    + eapply sessionsSound_frame; eauto.
Qed.

Lemma reachable_sound (w : World) : Reachable w -> sessionsSound w.
Proof.
  induction 1 as [t | w w' _ IH Hstep].
  - intros u s Hs. cbn in Hs. rewrite lookup_empty in Hs. discriminate.
  - exact (step_sound w w' Hstep IH).
Qed.

(** X16. An attempt with valid parameters always ends the Prediction
    session, whatever the predictor does: it answers, fails, hangs until
    the timeout or answers with something that cannot be stored. *)
Lemma prediction_attempt_clears (env : Env) (w : World) (msg : Message) :
  predictionState w !! from_id msg = Some awaiting_parameters ->
  noText msg = false ->
  toLowerCase (msgText msg) <> cancelCommand ->
  valid (validateParameters (paramArrayOf msg)) = true ->
  predictionState (after (handlePredictionResponse env msg) w) !! from_id msg
  = None.
Proof.
  intros Hs Htext Hcancel Hv.
  unfold handlePredictionResponse. rewrite Htext.
  run. rewrite Hs.
  rewrite bool_decide_eq_false_2 by exact Hcancel.
  fold (paramArrayOf msg). rewrite Hv. cbn.
  unfold awaitPrediction.
  destruct (settled _) as [[now [result | reason]] |]; run;
    try apply lookup_delete_eq.
  unfold storeAndReport.
  destruct (getProperty result (js "size")) as [[] |]; run;
    try apply lookup_delete_eq.
  destruct (getProperty result (js "pdi")) as [[] |]; run;
    try apply lookup_delete_eq.
Qed.

End BotFacts.

(** ** More on the prediction gateway *)

Module GatewayFacts.
Import JS ParameterUtils PredictionService Bot Scenarios Vocabulary
  PredictionServiceFacts.

Lemma feed_data events : forall c,
  writesBefore timeoutMs events = true ->
  output (feed events c) = output c ++ stdoutOf events
  /\ errorOutput (feed events c) = errorOutput c ++ stderrOf events
  /\ timeoutPending (feed events c) = timeoutPending c
  /\ child (feed events c) = child c
  /\ settled (feed events c) = settled c.
Proof.
  induction events as [| [t ev] evs IH]; intros c Hw; cbn.
  - rewrite !app_nil_r. auto.
  - cbn in Hw. apply andb_prop in Hw as [Hev Hw].
    apply andb_prop in Hev as [Hd _]. cbn in Hd.
    destruct (IH (onEvent t ev c) Hw) as (Ho & He & Hp & Hc & Hs).
    rewrite Ho, He, Hp, Hc, Hs.
    destruct ev; try discriminate; cbn; rewrite <- ?app_assoc; auto.
Qed.

Lemma runProcess_data events : forall c rest,
  timeoutPending c = true ->
  writesBefore timeoutMs events = true ->
  runProcess (events ++ rest) c = runProcess rest (feed events c).
Proof.
  induction events as [| [t ev] evs IH]; intros c rest Hp Hw; cbn.
  - reflexivity.
  - cbn in Hw. apply andb_prop in Hw as [Hev Hw].
    apply andb_prop in Hev as [Hd Ht]. cbn in Hd, Ht.
    rewrite Hp. cbn. replace (timeoutMs <=? t)%N with false
      by (symmetry; apply N.leb_gt, N.ltb_lt; exact Ht).
    apply IH; [| exact Hw].
    destruct ev; try discriminate; cbn; exact Hp.
Qed.

Lemma onEvent_child_keep now ev c :
  child c <> Running -> child (onEvent now ev c) = child c.
Proof.
  intros H. destruct ev; cbn; try reflexivity.
  - unfold onClose, clearTimeout, setChild.
    case_bool_decide; rewrite settle_child; cbn;
      destruct (child c) eqn:E; cbn; congruence.
  - unfold onError. rewrite settle_child. reflexivity.
Qed.

Lemma runProcess_idle_child events : forall c,
  timeoutPending c = false -> child c <> Running ->
  child (runProcess events c) = child c.
Proof.
  induction events as [| [now ev] rest IH]; intros c Hp Hc; cbn.
  - rewrite Hp. reflexivity.
  - rewrite Hp. cbn. rewrite IH.
    + apply onEvent_child_keep, Hc.
    + apply onEvent_idle, Hp.
    + rewrite onEvent_child_keep by exact Hc. exact Hc.
Qed.

Lemma onClose_failed now code c :
  settled c = None -> code <> Some 0 ->
  settled (onClose now code c)
  = Some (now, Rejected (ProcessExit code (errorOutput c))).
Proof.
  intros Hs Hcode. unfold onClose.
  rewrite bool_decide_eq_false_2 by exact Hcode.
  rewrite settle_unsettled; destruct (child (clearTimeout c)); cbn; auto.
Qed.

Lemma onClose_child now code c :
  child c = Running -> child (onClose now code c) = Exited.
Proof.
  intros H. unfold onClose, clearTimeout, setChild.
  case_bool_decide; rewrite settle_child; cbn; rewrite H; reflexivity.
Qed.

(** X1. When the predictor ends before the deadline with an exit code
    other than 0, or with none (it was ended by a signal), the call is
    rejected at that moment with the process error, which carries the
    code and everything the process wrote to its standard error; what
    it wrote to its standard output is not looked at, and the process
    is not killed. *)
Theorem failed_exit_rejected (events rest : ProcessRun) (now : N)
    (code : option Z) :
  writesBefore timeoutMs events = true -> (now < timeoutMs)%N ->
  code <> Some 0 ->
  let c := runProcess (events ++ (now, Close code) :: rest) started in
  settled c = Some (now, Rejected (ProcessExit code (stderrOf events)))
  /\ child c = Exited.
Proof.
  intros Hw Hnow Hcode c. subst c.
  rewrite runProcess_data by (try reflexivity; exact Hw).
  destruct (feed_data events started Hw) as (Ho & He & Hp & Hc & Hs).
  cbn [runProcess]. rewrite Hp. cbn.
  replace (timeoutMs <=? now)%N with false
    by (symmetry; apply N.leb_gt; exact Hnow).
  assert (settled (onClose now code (feed events started))
          = Some (now, Rejected (ProcessExit code (stderrOf events)))) as Hset.
  { rewrite onClose_failed by (rewrite ?Hs; auto). rewrite He. reflexivity. }
  assert (child (onClose now code (feed events started)) = Exited) as Hch.
  { apply onClose_child. rewrite Hc. reflexivity. }
  split.
  - apply runProcess_settled; [apply onClose_pending | exact Hset].
  - rewrite runProcess_idle_child; [exact Hch | apply onClose_pending |].
    rewrite Hch. discriminate.
Qed.

Lemma failed_exit_rejected_witness :
  settled (runProcess
             [(10%N, StdoutData (jsq "{'size': 1"));
              (20%N, StderrData (js "Traceback: "));
              (30%N, StderrData (js "no model"));
              (40%N, Close (Some 2));
              (50%N, StdoutData (js "late"))] started)
  = Some (40%N, Rejected (ProcessExit (Some 2) (js "Traceback: no model"))).
Proof.
  refine (eq_trans (proj1 (failed_exit_rejected
    [(10%N, StdoutData (jsq "{'size': 1"));
     (20%N, StderrData (js "Traceback: "));
     (30%N, StderrData (js "no model"))]
    [(50%N, StdoutData (js "late"))] 40 (Some 2) _ _ _)) _);
    try (vm_compute; reflexivity).
  discriminate.
Defined.

Lemma readResponse_not_timeout text now :
  Some (now, readResponse text)
  <> Some (timeoutMs, Rejected PredictionTimeout).
Proof.
  unfold readResponse.
  destruct (JSON_parse text) as [[] |]; try discriminate;
    destruct (truthy _); discriminate.
Qed.

Lemma onClose_unsettled_any now code c :
  settled c = None ->
  exists s, settled (onClose now code c) = Some (now, s)
            /\ s <> Rejected PredictionTimeout.
Proof.
  intros Hs. destruct (decide (code = Some 0)) as [-> | Hcode].
  - rewrite onClose_unsettled by exact Hs. eexists. split; [reflexivity |].
    intros E. eapply readResponse_not_timeout. rewrite E. reflexivity.
  - rewrite onClose_failed by assumption. eexists. split; [reflexivity |].
    discriminate.
Qed.

Lemma onEvent_timerSound now ev c :
  timerSound c -> timerSound (onEvent now ev c).
Proof.
  unfold timerSound. intros H.
  destruct (timeoutPending c) eqn:Hp.
  - destruct H as [Hs Hc]. destruct ev; cbn.
    + rewrite Hp. auto.
    + rewrite Hp. auto.
    + rewrite onClose_pending, (onClose_child _ _ _ Hc).
      destruct (onClose_unsettled_any now code c Hs) as (s & -> & Hne).
      split; [| eauto]. split; [discriminate | congruence].
    + unfold onError. rewrite settle_pending, settle_child. cbn.
      rewrite settle_unsettled by exact Hs. rewrite Hc.
      split; [split; discriminate | eauto].
  - destruct H as [Hk [x Hx]].
    rewrite (onEvent_idle _ _ _ Hp), (onEvent_settled_keep _ _ _ _ Hx).
    split; [| eauto]. rewrite <- Hx.
    assert (child c = Running \/ child c <> Running) as [Hr | Hr]
      by (destruct (child c); auto; right; discriminate).
    + destruct ev; cbn; try exact Hk.
      * rewrite (onClose_child _ _ _ Hr). rewrite Hr in Hk.
        split; [discriminate | intros E; apply Hk in E; discriminate].
      * unfold onError. rewrite settle_child. exact Hk.
    + rewrite onEvent_child_keep by exact Hr. exact Hk.
Qed.

Lemma expire_timerSound c :
  timeoutPending c = true -> timerSound c -> timerSound (expire c).
Proof.
  unfold timerSound at 1. intros Hp H. rewrite Hp in H. destruct H as [Hs _].
  destruct (expire_spec c Hs) as (Hs' & Hc' & Hp').
  unfold timerSound. rewrite Hp', Hs', Hc'. split; [tauto | eauto].
Qed.

Lemma runProcess_timerSound events : forall c,
  timerSound c ->
  timerSound (runProcess events c)
  /\ timeoutPending (runProcess events c) = false.
Proof.
  induction events as [| [now ev] rest IH]; intros c H; cbn.
  - destruct (timeoutPending c) eqn:Hp.
    + split; [apply expire_timerSound; assumption |].
      unfold timerSound in H. rewrite Hp in H.
      destruct (expire_spec c (proj1 H)) as (_ & _ & Hp'). exact Hp'.
    + auto.
  - destruct (timeoutPending c && (timeoutMs <=? now)%N) eqn:E.
    + apply andb_prop in E as [Hp _].
      split; [apply expire_timerSound; assumption |].
      unfold timerSound in H. rewrite Hp in H.
      destruct (expire_spec c (proj1 H)) as (_ & _ & Hp'). exact Hp'.
    + apply IH, onEvent_timerSound, H.
Qed.

Lemma started_timerSound : timerSound started.
Proof. unfold timerSound. cbn. auto. Qed.

(** X2. The predictor is killed by the gateway in one case only, the
    timeout: whatever the process does, at the end of a call the child
    has been killed exactly if the call was rejected with the timeout
    error (at the deadline). *)
Theorem killed_iff_timeout (predictor : ParameterRecord -> ProcessRun)
    (parameters : ParameterRecord) :
  let c := makeModelPrediction predictor parameters in
  child c = Killed
  <-> settled c = Some (timeoutMs, Rejected PredictionTimeout).
Proof.
  unfold makeModelPrediction.
  destruct (runProcess_timerSound (predictor parameters) started
              started_timerSound) as [H Hp].
  unfold timerSound in H. rewrite Hp in H. exact (proj1 H).
Qed.

(** X3. When the child process object emits [error] before the deadline
    (the predictor could not be spawned, say), the call is rejected at
    that moment with that error, the timer is cleared, and the gateway
    never kills the process. *)
Theorem spawn_error_rejected (events rest : ProcessRun) (now : N)
    (message : jsstring) :
  writesBefore timeoutMs events = true -> (now < timeoutMs)%N ->
  let c := runProcess (events ++ (now, ProcessError message) :: rest) started in
  settled c = Some (now, Rejected (SpawnError message))
  /\ child c <> Killed.
Proof.
  intros Hw Hnow c.
  assert (settled c = Some (now, Rejected (SpawnError message))) as Hset.
  { subst c. rewrite runProcess_data by (try reflexivity; exact Hw).
    destruct (feed_data events started Hw) as (_ & _ & Hp & _ & Hs).
    cbn [runProcess]. rewrite Hp. cbn.
    replace (timeoutMs <=? now)%N with false
      by (symmetry; apply N.leb_gt; exact Hnow).
    apply runProcess_settled.
    - unfold onError. rewrite settle_pending. reflexivity.
    - unfold onError. apply settle_unsettled. exact Hs. }
  split; [exact Hset |].
  destruct (runProcess_timerSound
              (events ++ (now, ProcessError message) :: rest) started
              started_timerSound) as [H Hp].
  fold c in H, Hp. unfold timerSound in H. rewrite Hp in H.
  intros Hk. apply (proj1 H) in Hk. rewrite Hset in Hk. discriminate.
Qed.

Lemma spawn_error_rejected_witness :
  settled (runProcess
             [(5%N, ProcessError (js "spawn python ENOENT"));
              (6%N, Close (Some (-2)))] started)
  = Some (5%N, Rejected (SpawnError (js "spawn python ENOENT"))).
Proof.
  exact (proj1 (spawn_error_rejected [] [(6%N, Close (Some (-2)))] 5
                  (js "spawn python ENOENT") eq_refl eq_refl)).
Defined.

(** X4. The first of [close] and [error] decides the call: once one of
    them has occurred before the deadline, nothing the process does
    later changes how the promise is settled. *)
Theorem first_settlement_stands (events rest : ProcessRun) (now : N)
    (ev : ProcessEvent) :
  writesBefore timeoutMs events = true -> (now < timeoutMs)%N ->
  isData ev = false ->
  settled (runProcess (events ++ (now, ev) :: rest) started)
  = settled (runProcess (events ++ [(now, ev)]) started).
Proof.
  intros Hw Hnow Hev.
  rewrite !runProcess_data by (try reflexivity; exact Hw).
  destruct (feed_data events started Hw) as (_ & _ & Hp & _ & Hs).
  cbn [runProcess]. rewrite Hp. cbn.
  replace (timeoutMs <=? now)%N with false
    by (symmetry; apply N.leb_gt; exact Hnow).
  assert (timeoutPending (onEvent now ev (feed events started)) = false) as Hp'.
  { destruct ev; try discriminate; cbn.
    - apply onClose_pending.
    - unfold onError. rewrite settle_pending. reflexivity. }
  assert (is_Some (settled (onEvent now ev (feed events started)))) as [x Hx].
  { destruct ev; try discriminate; cbn.
    - unfold onClose. case_bool_decide;
        rewrite settle_unsettled; destruct (child _); cbn; eauto.
    - unfold onError. rewrite settle_unsettled by exact Hs. eauto. }
  rewrite Hp'. rewrite Hx. apply runProcess_settled; assumption.
Qed.

Lemma first_settlement_stands_witness :
  settled (runProcess
             [(10%N, StdoutData (js "oops")); (20%N, Close (Some 1));
              (30%N, StdoutData (js "{}")); (40%N, Close (Some 0))] started)
  = Some (20%N, Rejected (ProcessExit (Some 1) [])).
Proof.
  refine (eq_trans (first_settlement_stands
    [(10%N, StdoutData (js "oops"))]
    [(30%N, StdoutData (js "{}")); (40%N, Close (Some 0))]
    20 (Close (Some 1)) eq_refl eq_refl eq_refl) _).
  vm_compute. reflexivity.
Defined.

Lemma onEvent_no_leak now ev c :
  match ev with ProcessError _ => False | _ => True end ->
  (if timeoutPending c then child c = Running else child c <> Running) ->
  if timeoutPending (onEvent now ev c) then child (onEvent now ev c) = Running
  else child (onEvent now ev c) <> Running.
Proof.
  intros Hev H. destruct ev; cbn; try exact H; [| destruct Hev].
  rewrite onClose_pending.
  destruct (timeoutPending c).
  - rewrite (onClose_child _ _ _ H). discriminate.
  - pose proof (onEvent_child_keep now (Close code) c H) as Hk.
    cbn in Hk. rewrite Hk. exact H.
Qed.

Lemma runProcess_no_leak events : forall c,
  noErrorEvent events = true ->
  (if timeoutPending c then child c = Running else child c <> Running) ->
  timerSound c ->
  child (runProcess events c) <> Running.
Proof.
  induction events as [| [now ev] rest IH]; intros c Hn H Hts; cbn.
  - destruct (timeoutPending c) eqn:Hp; [| exact H].
    unfold timerSound in Hts. rewrite Hp in Hts.
    destruct (expire_spec c (proj1 Hts)) as (_ & -> & _). discriminate.
  - cbn in Hn. apply andb_prop in Hn as [Hev Hn]. cbn in Hev.
    destruct (timeoutPending c && (timeoutMs <=? now)%N) eqn:E.
    + apply andb_prop in E as [Hp _].
      unfold timerSound in Hts. rewrite Hp in Hts.
      destruct (expire_spec c (proj1 Hts)) as (_ & -> & _). discriminate.
    + apply IH; [exact Hn | | apply onEvent_timerSound, Hts].
      apply onEvent_no_leak; [destruct ev; auto; discriminate | exact H].
Qed.

(** X5. Unless the child process object emits [error], the predictor is
    not left running when the call is over: it has ended by itself or
    has been killed. *)
Theorem predictor_not_left_running (predictor : ParameterRecord -> ProcessRun)
    (parameters : ParameterRecord) :
  noErrorEvent (predictor parameters) = true ->
  let c := makeModelPrediction predictor parameters in
  child c = Exited \/ child c = Killed.
Proof.
  intros Hn c.
  pose proof (runProcess_no_leak (predictor parameters) started Hn eq_refl
                started_timerSound) as H.
  fold (makeModelPrediction predictor parameters) in H. fold c in H.
  destruct (child c); [destruct (H eq_refl) | auto | auto].
Qed.

Lemma predictor_not_left_running_witness :
  child (makeModelPrediction (predictor hanging)
           (convertParametersToObject (tokens "1 1 3 2 11 500 30"))) = Exited
  \/ child (makeModelPrediction (predictor hanging)
              (convertParametersToObject (tokens "1 1 3 2 11 500 30"))) = Killed.
Proof.
  apply (predictor_not_left_running (predictor hanging)). reflexivity.
Defined.



End GatewayFacts.

(** ** More on the parameter validator *)

Module ValidatorFacts.
Import JS ParameterUtils Scenarios Vocabulary JSFacts ParameterUtilsFacts.

(** A validation result is of one of two shapes: valid without an
    error, or invalid with one; so the error the Prediction flow shows
    for an invalid input is never missing. *)
Lemma result_has_error_iff_invalid (paramArray : list jsstring) :
  (valid (validateParameters paramArray) = true
   <-> error (validateParameters paramArray) = None)
  /\ (valid (validateParameters paramArray) = false
      <-> is_Some (error (validateParameters paramArray))).
Proof.
  unfold validateParameters. cbv zeta.
  repeat case_match; cbn; (split; split); intros Hres;
    try reflexivity; try discriminate; try (destruct Hres; discriminate);
    eauto.
Qed.

(** X7. With 7 or 8 tokens the validator reports the first violated
    constraint, in the order of the fields (the three concentrations,
    ligand type, pH, volume, time, rate), and none when no constraint is
    violated; what comes after the first violation plays no part. *)
Theorem first_violation_reported (paramArray : list jsstring) :
  length paramArray = 7%nat \/ length paramArray = 8%nat ->
  error (validateParameters paramArray)
  = head (violations (convertParametersToObject paramArray)).
Proof.
  intros Hlen.
  unfold validateParameters, convertParametersToObject, violations,
    nonNegative, positive.
  assert (((length paramArray <? 7) || (8 <? length paramArray))%nat = false)
    as -> by (destruct Hlen as [-> | ->]; reflexivity).
  cbv zeta. cbn [euConcentration phenanthrolineConcentration
    ligandConcentration ligandType phBsa additionVolume additionTime
    additionRate].
  rewrite <- !not_negative, <- !not_non_positive.
  set (rate := if (length paramArray =? 8)%nat then _ else _).
  destruct (isNaN (parseFloat (item paramArray 0)) || _)%float; [reflexivity |].
  destruct (isNaN (parseFloat (item paramArray 1)) || _)%float; [reflexivity |].
  destruct (isNaN (parseFloat (item paramArray 2)) || _)%float; [reflexivity |].
  destruct (parseInt (item paramArray 3)) as [lt |]; cbn; [| reflexivity].
  destruct (lt <? 0) eqn:E1; [replace (0 <=? lt) with false by lia; reflexivity |].
  destruct (3 <? lt) eqn:E2;
    [replace (lt <=? 3) with false by lia; rewrite andb_false_r; reflexivity |].
  replace (0 <=? lt) with true by lia. replace (lt <=? 3) with true by lia.
  destruct (parseInt (item paramArray 4)) as [ph |]; cbn; [| reflexivity].
  destruct (ph <? 7) eqn:E3; [replace (7 <=? ph) with false by lia; reflexivity |].
  destruct (11 <? ph) eqn:E4;
    [replace (ph <=? 11) with false by lia; rewrite andb_false_r; reflexivity |].
  replace (7 <=? ph) with true by lia. replace (ph <=? 11) with true by lia.
  cbn.
  destruct (isNaN (parseFloat (item paramArray 5)) || _)%float; [reflexivity |].
  destruct (isNaN (parseFloat (item paramArray 6)) || _)%float; [reflexivity |].
  destruct (isNaN rate || _)%float; reflexivity.
Qed.

Lemma first_violation_reported_witness :
  error (validateParameters (tokens "1 -1 3 9 12 0 30"))
  = Some PhenanthrolineConcentrationError
  /\ error (validateParameters (tokens "1 1 3 2 11 500 0 abc"))
     = Some AdditionTimeError.
Proof.
  split.
  - refine (eq_trans (first_violation_reported (tokens "1 -1 3 9 12 0 30") _) _);
      [left; reflexivity | vm_compute; reflexivity].
  - refine (eq_trans (first_violation_reported
                        (tokens "1 1 3 2 11 500 0 abc") _) _);
      [right; reflexivity | vm_compute; reflexivity].
Defined.

End ValidatorFacts.

(** ** More on the dialog controllers *)

Module HandlerFacts.
Import JS ParameterUtils PredictionService Bot Scenarios Vocabulary JSFacts
  PredictionServiceFacts BotFacts.

(** What the Result-Entry handler can do to the table: nothing, or
    write the actual values of one row of the sender, the PdI being the
    accepted entry and the size the one kept in the session. *)
Lemma handleAddResult_table (w : World) (msg : Message) :
  let w' := after (handleAddResultResponse msg) w in
  experiments w' = experiments w
  \/ exists i e s p,
       experiments w !! i = Some e
       /\ Experiment.userId e = from_id msg
       /\ addResultState w !! from_id msg = Some s
       /\ state s = awaiting_actual_pdi
       /\ nonNegative p = true
       /\ experiments w' = <[i := withActual e (actualSize s) p]> (experiments w).
Proof.
  unfold handleAddResultResponse.
  destruct (noText msg); [left; reflexivity |].
  run. destruct (addResultState w !! from_id msg) as [s |] eqn:Hs;
    [| left; reflexivity].
  case_bool_decide; [left; reflexivity |].
  destruct (state s) eqn:Hst.
  - case_bool_decide; [| left; reflexivity].
    destruct (Experiment.findOne _ _ _) as [[i e] |]; left; reflexivity.
  - destruct (isNaN _ || _); left; reflexivity.
  - destruct (isNaN _ || _) eqn:Hp; [left; reflexivity |].
    unfold saveResults. run.
    destruct (Experiment.findOne _ _ _) as [[i e] |] eqn:Hfind;
      [| left; reflexivity].
    apply findFrom_index in Hfind as (_ & Hl & _ & Hu).
    rewrite Nat.sub_0_r in Hl.
    right. exists i, e, s, (parseFloat (trim (msgText msg))).
    unfold nonNegative. rewrite <- not_negative, Hp.
    repeat split; try assumption.
    run. destruct (actualSize s); reflexivity.
Qed.

(** X8. In the Prediction flow, when the parameters are valid and the
    gateway resolves with a response whose [size] and [pdi] are numbers,
    exactly one experiment is added to the table, owned by the sender,
    with these parameters and predicted values and no actual values;
    the processing notice is replaced by the summary, which names the
    new experiment; the session is cleared. *)
Theorem prediction_stored (env : Env) (w : World) (msg : Message) (now : N)
    (prediction : JSValue) (size pdi : Number) :
  predictionState w !! from_id msg = Some awaiting_parameters ->
  noText msg = false ->
  toLowerCase (msgText msg) <> cancelCommand ->
  valid (validateParameters (paramArrayOf msg)) = true ->
  let parameters := convertParametersToObject (paramArrayOf msg) in
  settled (makeModelPrediction (predictor env) parameters)
  = Some (now, Resolved prediction) ->
  getProperty prediction (js "size") = Some (JNum size) ->
  getProperty prediction (js "pdi") = Some (JNum pdi) ->
  let id := generateId env (experiments w) in
  after (handlePredictionResponse env msg) w
  = {| predictionState := delete (from_id msg) (predictionState w);
       addResultState := addResultState w;
       experiments :=
         experiments w
         ++ [{| Experiment.experimentId := id;
                Experiment.userId := from_id msg;
                Experiment.parameters := parameters;
                Experiment.predictedSize := size;
                Experiment.predictedPdI := pdi;
                Experiment.actualSize := None;
                Experiment.actualPdI := None |}];
       outbox :=
         outbox w
         ++ [SendMessage (chat_id msg) Processing;
             EditMessageText (chat_id msg) (length (outbox w))
               (PredictionResult parameters size pdi
                  (getProperty prediction (js "sizeConfidence"))
                  (getProperty prediction (js "pdiConfidence")) id)] |}.
Proof.
  intros Hs Htext Hcancel Hv parameters Hcall Hsize Hpdi id.
  unfold handlePredictionResponse. rewrite Htext.
  run. rewrite Hs.
  rewrite bool_decide_eq_false_2 by exact Hcancel.
  fold (paramArrayOf msg). rewrite Hv. cbn.
  fold parameters. unfold awaitPrediction. rewrite Hcall.
  run. unfold storeAndReport. rewrite Hsize, Hpdi.
  unfold Experiment.create. run.
  unfold sent. cbn. rewrite <- app_assoc. reflexivity.
Qed.

Lemma prediction_stored_witness :
  let env := exiting 0 (jsq "{'size': 120.5, 'pdi': 0.25}") in
  let w := after (handlePredictionResponse env
                    (message (js "2 2 6 1 9 340 34 10"))) predicting in
  (Experiment.predictedSize <$> experiments w) = [120.5%float]
  /\ (Experiment.userId <$> experiments w) = [alice]
  /\ predictionState w !! alice = None.
Proof.
  intros env w. subst w.
  rewrite (prediction_stored env predicting
             (message (js "2 2 6 1 9 340 34 10")) 2000
             (JObj [(js "size", JNum 120.5); (js "pdi", JNum 0.25)])
             120.5 0.25 eq_refl eq_refl).
  - vm_compute. repeat split.
  - vm_compute. discriminate.
  - vm_compute. reflexivity.
  - vm_compute. reflexivity.
  - reflexivity.
  - reflexivity.
Defined.

(** The attempt with valid parameters of the sample situation ends the
    session although the predictor never answers. *)
Lemma prediction_attempt_clears_witness :
  predictionState
    (after (handlePredictionResponse hanging (message (js "1 1 3 2 11 500 30")))
       predicting) !! alice = None.
Proof.
  apply (prediction_attempt_clears hanging predicting
           (message (js "1 1 3 2 11 500 30")) eq_refl eq_refl).
  - vm_compute. discriminate.
  - vm_compute. reflexivity.
Defined.

Lemma findFrom_none (t : Experiment.Table) : forall k id user,
  (forall i e, t !! i = Some e ->
     Experiment.experimentId e = id -> Experiment.userId e <> user) ->
  Experiment.findFrom k id user t = None.
Proof.
  induction t as [| a t IH]; intros k id user H; cbn.
  - reflexivity.
  - destruct (bool_decide (Experiment.experimentId a = id)
              && bool_decide (Experiment.userId a = user)) eqn:E.
    + apply andb_prop in E as [E1 E2].
      apply bool_decide_eq_true in E1, E2.
      destruct (H 0%nat a eq_refl E1 E2).
    + apply IH. intros i e Hi. exact (H (S i) e Hi).
Qed.

(** X9. The Result-Entry flow cannot be entered for an experiment the
    sender does not own: when no stored experiment has both the given
    identifier and the sender as its user (the identifier is unknown,
    or it is the experiment of somebody else), the only effect of
    [startAddResult] is the not-found message; no session is created. *)
Theorem foreign_experiment_not_found (w : World) (msg : Message)
    (id : jsstring) :
  (forall i e, experiments w !! i = Some e ->
     Experiment.experimentId e = id -> Experiment.userId e <> from_id msg) ->
  after (startAddResult msg id) w
  = sent w [SendMessage (chat_id msg) ExperimentNotFound].
Proof.
  intros H. unfold startAddResult. run.
  unfold Experiment.findOne. rewrite findFrom_none by exact H. reflexivity.
Qed.

Lemma foreign_experiment_not_found_witness :
  let mallory := {| chat_id := 7; from_id := 7; text := Some (js "/add_result 7f3a") |} in
  after (startAddResult mallory (js "7f3a")) (initial [measured])
  = sent (initial [measured]) [SendMessage 7 ExperimentNotFound].
Proof.
  apply (foreign_experiment_not_found (initial [measured])).
  intros [| i] e He; [| destruct i; discriminate].
  injection He as <-. intros _. discriminate.
Defined.

(** X10. The confirmation is asked for only when both actual values are
    present: for an experiment of the sender that lacks the actual size
    or the actual PdI, even if it has the other, [startAddResult] shows
    the experiment and opens the session in [awaiting_actual_size]
    directly. *)
Theorem partial_results_need_no_confirmation (w : World) (msg : Message)
    (id : jsstring) (i : nat) (e : Experiment.Row) :
  Experiment.findOne id (from_id msg) (experiments w) = Some (i, e) ->
  Experiment.actualSize e = None \/ Experiment.actualPdI e = None ->
  after (startAddResult msg id) w
  = {| predictionState := predictionState w;
       addResultState :=
         <[from_id msg := {| state := awaiting_actual_size;
                             experimentId := id; actualSize := None |}]>
           (addResultState w);
       experiments := experiments w;
       outbox := outbox w ++ [SendMessage (chat_id msg) (AskActualSize e)] |}.
Proof.
  intros Hfind Hmiss. unfold startAddResult. run. rewrite Hfind.
  assert (hasActualResults e = false) as ->.
  { unfold hasActualResults.
    destruct Hmiss as [-> | ->]; rewrite ?andb_false_r; reflexivity. }
  reflexivity.
Qed.

Lemma partial_results_need_no_confirmation_witness :
  let half := withActual measured None 0.5 in
  (state <$> addResultState
     (after (startAddResult (message (js "/add_result 7f3a")) (js "7f3a"))
        (initial [half])) !! alice)
  = Some awaiting_actual_size.
Proof.
  intros half.
  rewrite (partial_results_need_no_confirmation (initial [half])
             (message (js "/add_result 7f3a")) (js "7f3a") 0%nat half
             eq_refl (or_introl eq_refl)).
  reflexivity.
Defined.

(** X11. The end of the Result-Entry flow: in [awaiting_actual_pdi], a
    text (other than the cancel command) that parses as a Number at
    least 0 writes the size kept in the session and this PdI into the
    experiment of the session, and into no other row; the session is
    cleared and the summary sent, with the two differences in percent
    of the predicted values. *)
Theorem results_saved (w : World) (msg : Message) (s : AddResultSession)
    (size : Number) (i : nat) (e : Experiment.Row) :
  addResultState w !! from_id msg = Some s ->
  state s = awaiting_actual_pdi ->
  actualSize s = Some size ->
  noText msg = false ->
  toLowerCase (msgText msg) <> cancelCommand ->
  let pdi := parseFloat (trim (msgText msg)) in
  nonNegative pdi = true ->
  Experiment.findOne (experimentId s) (from_id msg) (experiments w)
  = Some (i, e) ->
  after (handleAddResultResponse msg) w
  = {| predictionState := predictionState w;
       addResultState := delete (from_id msg) (addResultState w);
       experiments := <[i := withActual e (Some size) pdi]> (experiments w);
       outbox :=
         outbox w
         ++ [SendMessage (chat_id msg)
               (ResultsSaved (withActual e (Some size) pdi)
                  ((size - Experiment.predictedSize e)
                   / Experiment.predictedSize e * 100)%float
                  ((pdi - Experiment.predictedPdI e)
                   / Experiment.predictedPdI e * 100)%float)] |}.
Proof.
  intros Hs Hst Hsize Htext Hcancel pdi Hpdi Hfind.
  unfold handleAddResultResponse. rewrite Htext.
  run. rewrite Hs, Hst.
  rewrite bool_decide_eq_false_2 by exact Hcancel.
  fold pdi. unfold nonNegative in Hpdi. rewrite <- not_negative in Hpdi.
  apply negb_true_iff in Hpdi. rewrite Hpdi.
  unfold saveResults. run. rewrite Hfind. run. rewrite Hsize. reflexivity.
Qed.

Lemma results_saved_witness :
  let w := after (handleAddResultResponse (message (js "0.125")))
             (entering awaiting_actual_pdi (Some 125.5%float)) in
  experiments w = [withActual measured (Some 125.5%float) 0.125]
  /\ addResultState w !! alice = None.
Proof.
  intros w. subst w.
  rewrite (results_saved (entering awaiting_actual_pdi (Some 125.5%float))
             (message (js "0.125")) _ 125.5 0%nat measured
             eq_refl eq_refl eq_refl eq_refl).
  - split; reflexivity.
  - vm_compute. discriminate.
  - vm_compute. reflexivity.
  - reflexivity.
Defined.

(** X12. Every text the Result-Entry handler takes up (the sender has a
    session and the message has a text) is answered with exactly one
    message, sent to the chat it came from; without a session or
    without a text nothing is sent. *)
Theorem one_reply_per_entry (w : World) (msg : Message) :
  let w' := after (handleAddResultResponse msg) w in
  (is_Some (addResultState w !! from_id msg) -> noText msg = false ->
   exists reply, outbox w' = outbox w ++ [SendMessage (chat_id msg) reply])
  /\ (addResultState w !! from_id msg = None \/ noText msg = true ->
      outbox w' = outbox w).
Proof.
  unfold handleAddResultResponse. split.
  - intros [s Hs] Htext. rewrite Htext. run. rewrite Hs.
    case_bool_decide; [eauto |].
    destruct (state s).
    + case_bool_decide; [| cbn; eauto].
      destruct (Experiment.findOne _ _ _) as [[i e] |]; cbn; eauto.
    + destruct (isNaN _ || _); cbn; eauto.
    + destruct (isNaN _ || _); [cbn; eauto |].
      unfold saveResults. run.
      destruct (Experiment.findOne _ _ _) as [[i e] |]; run; [| eauto].
      destruct (actualSize s); cbn; eauto.
  - intros [Hs | Htext].
    + destruct (noText msg); [reflexivity |]. run. rewrite Hs. reflexivity.
    + rewrite Htext. reflexivity.
Qed.

Lemma one_reply_per_entry_witness :
  exists reply,
    outbox (after (handleAddResultResponse (message (js "abc")))
              (entering awaiting_actual_pdi (Some 118%float)))
    = outbox (entering awaiting_actual_pdi (Some 118%float))
      ++ [SendMessage alice reply].
Proof.
  apply (proj1 (one_reply_per_entry
                  (entering awaiting_actual_pdi (Some 118%float))
                  (message (js "abc")))).
  - vm_compute. eauto.
  - reflexivity.
Defined.

(** X13. The listener does nothing at all for a sender who is in
    neither flow, whatever the text, and nothing for a message without
    a text or with a text that starts with ["/"]. *)
Theorem strangers_ignored (env : Env) (w : World) (msg : Message) :
  (predictionState w !! from_id msg = None
   /\ addResultState w !! from_id msg = None)
  \/ noText msg = true
  \/ startsWith (js "/") (msgText msg) = true ->
  onMessage env msg w = (Normal tt, w).
Proof.
  intros [[Hp Ha] | [Htext | Hslash]]; unfold onMessage.
  - destruct (negb (noText msg) && _); [| reflexivity].
    unfold mbind, M_bind.
    rewrite handlePrediction_no_session by exact Hp.
    apply handleAddResult_no_session, Ha.
  - rewrite Htext. reflexivity.
  - rewrite Hslash, andb_false_r. reflexivity.
Qed.

Lemma strangers_ignored_witness :
  onMessage hanging (message (js "1 1 3 2 11 500 30")) (initial [measured])
  = (Normal tt, initial [measured]).
Proof.
  apply strangers_ignored. left. split; reflexivity.
Defined.

Lemma sameForecast_refl (e : Experiment.Row) : sameForecast e e.
Proof. unfold sameForecast. auto. Qed.

Lemma sameForecast_withActual (e : Experiment.Row) size pdi :
  sameForecast e (withActual e size pdi).
Proof. unfold sameForecast. cbn. auto. Qed.

(** What the listener can do to a row of the table: nothing, or write
    its actual values as [handleAddResult_table] says. *)
Lemma onMessage_rows (env : Env) (w : World) (msg : Message) (i : nat)
    (e : Experiment.Row) :
  experiments w !! i = Some e ->
  let w' := after (onMessage env msg) w in
  experiments w' !! i = Some e
  \/ (Experiment.userId e = from_id msg
      /\ exists s p,
           addResultState w !! from_id msg = Some s
           /\ state s = awaiting_actual_pdi
           /\ nonNegative p = true
           /\ experiments w' !! i = Some (withActual e (actualSize s) p)).
Proof.
  intros Hi. unfold onMessage.
  destruct (negb (noText msg) && _); [| left; exact Hi].
  unfold after, mbind, M_bind.
  pose proof (handlePrediction_frame env w msg) as [Ha He].
  unfold after in Ha, He.
  destruct (handlePredictionResponse env msg w) as [[[] | ex] w1]; cbn in *.
  - assert (experiments w1 !! i = Some e) as Hi1.
    { destruct He as [-> | [r ->]]; [exact Hi |].
      rewrite lookup_app_l; [exact Hi | eapply lookup_lt_Some, Hi]. }
    pose proof (handleAddResult_table w1 msg) as Ht. unfold after in Ht.
    destruct Ht as [-> | (j & e0 & s & p & Hj & Hu & Hs & Hst & Hp & ->)].
    + left. exact Hi1.
    + destruct (decide (j = i)) as [-> | Hne].
      * right. rewrite Hj in Hi1. injection Hi1 as ->.
        split; [exact Hu |]. exists s, p. rewrite <- Ha.
        repeat split; try assumption.
        apply list_lookup_insert_eq. eapply lookup_lt_Some, Hj.
      * left. rewrite list_lookup_insert_ne by exact Hne. exact Hi1.
  - left. destruct He as [-> | [r ->]]; [exact Hi |].
    rewrite lookup_app_l; [exact Hi | eapply lookup_lt_Some, Hi].
Qed.

Lemma step_rows (w w' : World) (i : nat) (e : Experiment.Row) :
  Step w w' -> experiments w !! i = Some e ->
  experiments w' !! i = Some e
  \/ exists s p,
       addResultState w !! Experiment.userId e = Some s
       /\ state s = awaiting_actual_pdi
       /\ nonNegative p = true
       /\ experiments w' !! i = Some (withActual e (actualSize s) p).
Proof.
  intros [msg w0 | msg id w0 | env msg w0] Hi.
  - left. exact Hi.
  - left. unfold startAddResult. run.
    destruct (Experiment.findOne _ _ _) as [[j e0] |]; cbn;
      [destruct (hasActualResults e0) |]; exact Hi.
  - destruct (onMessage_rows env w0 msg i e Hi) as [H | [Hu H]];
      [left; exact H | right; rewrite Hu; exact H].
Qed.

(** X14. Nothing the bot does deletes an experiment, moves it, gives it
    to another user or changes its forecast: after any step, every row
    of the table is still at its place, with the same identifier, user,
    parameters, predicted size and predicted PdI. *)
Theorem forecasts_are_kept (w w' : World) (i : nat) (e : Experiment.Row) :
  Step w w' -> experiments w !! i = Some e ->
  exists e', experiments w' !! i = Some e' /\ sameForecast e e'.
Proof.
  intros Hstep Hi.
  destruct (step_rows w w' i e Hstep Hi) as [H | (s & p & _ & _ & _ & H)].
  - exists e. split; [exact H | apply sameForecast_refl].
  - eexists. split; [exact H | apply sameForecast_withActual].
Qed.

Lemma forecasts_are_kept_witness :
  exists e',
    experiments (after (onMessage hanging (message (js "0.125")))
                   (entering awaiting_actual_pdi (Some 125.5%float)))
      !! 0%nat = Some e'
    /\ sameForecast measured e'.
Proof.
  apply (forecasts_are_kept (entering awaiting_actual_pdi (Some 125.5%float))).
  - apply StepMessage.
  - reflexivity.
Defined.

(** X15. A message never changes the experiment of another user: every
    row whose user is not the sender is the same after the listener has
    handled the message. *)
Theorem foreign_rows_untouched (env : Env) (w : World) (msg : Message)
    (i : nat) (e : Experiment.Row) :
  experiments w !! i = Some e ->
  Experiment.userId e <> from_id msg ->
  experiments (after (onMessage env msg) w) !! i = Some e.
Proof.
  intros Hi Hne.
  destruct (onMessage_rows env w msg i e Hi) as [H | [Hu _]];
    [exact H | destruct (Hne Hu)].
Qed.

Lemma foreign_rows_untouched_witness :
  let bob := {| chat_id := 7; from_id := 7; text := Some (js "0.125") |} in
  experiments (after (onMessage hanging bob)
                 (entering awaiting_actual_pdi (Some 125.5%float))) !! 0%nat
  = Some measured.
Proof.
  apply (foreign_rows_untouched hanging
           (entering awaiting_actual_pdi (Some 125.5%float))).
  - reflexivity.
  - discriminate.
Defined.

Lemma sizesPositive_keep (w w' : World) :
  addResultState w' = addResultState w -> sizesPositive w -> sizesPositive w'.
Proof. intros Ha H u s x Hs. rewrite Ha in Hs. exact (H u s x Hs). Qed.

Lemma sizesPositive_sub (w w' : World) :
  (forall u s, addResultState w' !! u = Some s -> addResultState w !! u = Some s) ->
  sizesPositive w -> sizesPositive w'.
Proof. intros Hsub H u s x Hs. exact (H u s x (Hsub u s Hs)). Qed.

Lemma sizesPositive_delete (w w' : World) (userId : Z) :
  addResultState w' = delete userId (addResultState w) ->
  sizesPositive w -> sizesPositive w'.
Proof.
  intros Ha H u s x Hs. rewrite Ha in Hs.
  apply lookup_delete_Some in Hs as [_ Hs]. exact (H u s x Hs).
Qed.

Lemma sizesPositive_insert (w w' : World) (userId : Z) (s : AddResultSession) :
  addResultState w' = <[userId := s]> (addResultState w) ->
  (forall x, actualSize s = Some x -> positive x = true) ->
  sizesPositive w -> sizesPositive w'.
Proof.
  intros Ha Hs H u s' x Hs'. rewrite Ha in Hs'.
  destruct (decide (userId = u)) as [<- | Hne].
  - rewrite lookup_insert_eq in Hs'. injection Hs' as <-. apply Hs.
  - rewrite lookup_insert_ne in Hs' by exact Hne. exact (H u s' x Hs').
Qed.

Lemma handleAddResult_sizes (w : World) (msg : Message) :
  sizesPositive w -> sizesPositive (after (handleAddResultResponse msg) w).
Proof.
  intros H. unfold handleAddResultResponse.
  destruct (noText msg); [exact H |].
  run. destruct (addResultState w !! from_id msg) as [s |] eqn:Hs; [| exact H].
  case_bool_decide.
  { eapply sizesPositive_delete; [| exact H]; reflexivity. }
  destruct (state s) eqn:Hst.
  - case_bool_decide.
    + destruct (Experiment.findOne _ _ _) as [[i e] |]; cbn.
      * eapply sizesPositive_insert; [reflexivity | | exact H]. cbn.
        intros x Hx. exact (H _ _ x Hs Hx).
      * eapply sizesPositive_delete; [| exact H]; reflexivity.
    + eapply sizesPositive_delete; [| exact H]; reflexivity.
  - destruct (isNaN _ || _) eqn:Hp.
    + eapply sizesPositive_keep; [| exact H]; reflexivity.
    + eapply sizesPositive_insert; [reflexivity | | exact H]. cbn.
      intros x [= <-]. unfold positive. rewrite <- not_non_positive, Hp.
      reflexivity.
  - destruct (isNaN _ || _).
    + eapply sizesPositive_keep; [| exact H]; reflexivity.
    + unfold saveResults. run.
      destruct (Experiment.findOne _ _ _) as [[i e] |]; run.
      * destruct (actualSize s); cbn;
          (eapply sizesPositive_sub; [| exact H]; cbn; intros u s' Hs';
           repeat (apply lookup_delete_Some in Hs' as [_ Hs']); exact Hs').
      * eapply sizesPositive_delete; [| exact H]; reflexivity.
Qed.

Lemma step_sizes (w w' : World) :
  Step w w' -> sizesPositive w -> sizesPositive w'.
Proof.
  intros [msg w0 | msg id w0 | env msg w0] H.
  - eapply sizesPositive_keep; [| exact H]; reflexivity.
  - unfold startAddResult. run.
    destruct (Experiment.findOne _ _ _) as [[i e] |]; cbn.
    + destruct (hasActualResults e); cbn;
        (eapply sizesPositive_insert; [reflexivity | cbn; discriminate | exact H]).
    + eapply sizesPositive_keep; [| exact H]; reflexivity.
  - unfold onMessage.
    destruct (negb (noText msg) && _); [| exact H].
    unfold after, mbind, M_bind.
    pose proof (handlePrediction_frame env w0 msg) as [Ha _].
    unfold after in Ha.
    destruct (handlePredictionResponse env msg w0) as [[[] | ex] w1]; cbn in *.
    + apply (handleAddResult_sizes w1 msg).
      eapply sizesPositive_keep; eauto.
    + eapply sizesPositive_keep; eauto.
Qed.

Lemma reachable_sizes (w : World) : Reachable w -> sizesPositive w.
Proof.
  induction 1 as [t | w w' _ IH Hstep].
  - intros u s x Hs. cbn in Hs. rewrite lookup_empty in Hs. discriminate.
  - exact (step_sizes w w' Hstep IH).
Qed.

(** X17. The bot never stores a size that is not greater than 0 or a
    PdI below 0: in any world it can get to, a step leaves each row as
    it is or gives it an actual size greater than 0 and an actual PdI
    at least 0, both at once. *)
Theorem written_results_in_range (w w' : World) (i : nat)
    (e e' : Experiment.Row) :
  Reachable w -> Step w w' ->
  experiments w !! i = Some e -> experiments w' !! i = Some e' ->
  e' = e
  \/ exists size pdi,
       Experiment.actualSize e' = Some size /\ positive size = true
       /\ Experiment.actualPdI e' = Some pdi /\ nonNegative pdi = true.
Proof.
  intros Hreach Hstep Hi Hi'.
  destruct (step_rows w w' i e Hstep Hi)
    as [H | (s & p & Hs & Hst & Hp & H)]; rewrite H in Hi'; injection Hi' as <-.
  - left. reflexivity.
  - right. destruct (reachable_sound w Hreach _ _ Hs) as [_ Hsize].
    destruct (Hsize Hst) as [x Hx].
    exists x, p. cbn. rewrite Hx.
    repeat split; [| exact Hp].
    exact (reachable_sizes w Hreach _ _ x Hs Hx).
Qed.

Lemma written_results_in_range_witness :
  let w0 := initial [measured] in
  let w1 := after (startAddResult (message (js "/add_result 7f3a")) (js "7f3a")) w0 in
  let w2 := after (onMessage hanging (message Da)) w1 in
  let w3 := after (onMessage hanging (message (js "125.5"))) w2 in
  let w4 := after (onMessage hanging (message (js "0.125"))) w3 in
  withActual measured (Some 125.5%float) 0.125 = measured
  \/ exists size pdi,
       Experiment.actualSize (withActual measured (Some 125.5%float) 0.125)
       = Some size /\ positive size = true
       /\ Experiment.actualPdI (withActual measured (Some 125.5%float) 0.125)
          = Some pdi /\ nonNegative pdi = true.
Proof.
  intros w0 w1 w2 w3 w4.
  apply (written_results_in_range w3 w4 0%nat measured).
  - eapply ReachableStep; [| apply StepMessage].
    eapply ReachableStep; [| apply StepMessage].
    eapply ReachableStep; [apply ReachableInitial | apply StepAddResult].
  - apply StepMessage.
  - reflexivity.
  - reflexivity.
Defined.



Lemma handlePrediction_sessions (env : Env) (w : World) (msg : Message)
    (u : Z) :
  u <> from_id msg ->
  sessionsOf u (after (handlePredictionResponse env msg) w) = sessionsOf u w.
Proof.
  intros Hne. unfold sessionsOf. f_equal;
    [| f_equal; apply (handlePrediction_frame env w msg)].
  unfold handlePredictionResponse.
  destruct (noText msg); [reflexivity |].
  run. destruct (predictionState w !! from_id msg) as [[] |]; [| reflexivity].
  case_bool_decide; [cbn; apply lookup_delete_ne; congruence |].
  destruct (valid _); cbn; [| reflexivity].
  unfold awaitPrediction.
  destruct (settled _) as [[now [result | reason]] |]; run;
    try (apply lookup_delete_ne; congruence).
  unfold storeAndReport.
  destruct (getProperty result (js "size")) as [[] |]; run;
    try (apply lookup_delete_ne; congruence).
  destruct (getProperty result (js "pdi")) as [[] |]; run;
    try (apply lookup_delete_ne; congruence).
Qed.

Lemma handleAddResult_sessions (w : World) (msg : Message) (u : Z) :
  u <> from_id msg ->
  sessionsOf u (after (handleAddResultResponse msg) w) = sessionsOf u w.
Proof.
  intros Hne. assert (from_id msg <> u) as Hne' by congruence.
  unfold sessionsOf, handleAddResultResponse.
  destruct (noText msg); [reflexivity |].
  run. destruct (addResultState w !! from_id msg) as [s |]; [| reflexivity].
  case_bool_decide; [cbn; rewrite lookup_delete_ne by exact Hne'; reflexivity |].
  destruct (state s).
  - case_bool_decide.
    + destruct (Experiment.findOne _ _ _) as [[i e] |]; cbn;
        rewrite ?lookup_insert_ne, ?lookup_delete_ne by exact Hne'; reflexivity.
    + cbn. rewrite lookup_delete_ne by exact Hne'. reflexivity.
  - destruct (isNaN _ || _); cbn;
      rewrite ?lookup_insert_ne by exact Hne'; reflexivity.
  - destruct (isNaN _ || _); [reflexivity |].
    unfold saveResults. run.
    destruct (Experiment.findOne _ _ _) as [[i e] |]; run.
    + destruct (actualSize s); cbn;
        rewrite !lookup_delete_ne by exact Hne'; reflexivity.
    + rewrite lookup_delete_ne by exact Hne'. reflexivity.
Qed.

(** X19. The sessions are kept per user: whatever a user sends
    ([/predict], [/add_result] with any identifier, or any message to
    the listener), the Prediction session and the Result-Entry session
    of every other user stay as they are. *)
Theorem other_sessions_untouched (env : Env) (w : World) (msg : Message)
    (id : jsstring) (u : Z) :
  u <> from_id msg ->
  sessionsOf u (after (startPrediction msg) w) = sessionsOf u w
  /\ sessionsOf u (after (startAddResult msg id) w) = sessionsOf u w
  /\ sessionsOf u (after (onMessage env msg) w) = sessionsOf u w.
Proof.
  intros Hne. assert (from_id msg <> u) as Hne' by congruence.
  split; [| split].
  - unfold sessionsOf, startPrediction. run.
    rewrite lookup_insert_ne, lookup_delete_ne by exact Hne'. reflexivity.
  - unfold sessionsOf, startAddResult. run.
    destruct (Experiment.findOne _ _ _) as [[i e] |]; cbn; [| reflexivity].
    destruct (hasActualResults e); cbn;
      rewrite lookup_insert_ne by exact Hne'; reflexivity.
  - unfold onMessage.
    destruct (negb (noText msg) && _); [| reflexivity].
    unfold after, mbind, M_bind.
    pose proof (handlePrediction_sessions env w msg u Hne) as H1.
    unfold after in H1.
    destruct (handlePredictionResponse env msg w) as [[[] | ex] w1];
      cbn in *; [| exact H1].
    rewrite <- H1. apply (handleAddResult_sessions w1 msg u Hne).
Qed.

Lemma other_sessions_untouched_witness :
  let bob := {| chat_id := 7; from_id := 7; text := Some (js "0.125") |} in
  let w := entering awaiting_actual_pdi (Some 125.5%float) in
  sessionsOf alice (after (startPrediction bob) w) = sessionsOf alice w
  /\ sessionsOf alice (after (startAddResult bob (js "7f3a")) w)
     = sessionsOf alice w
  /\ sessionsOf alice (after (onMessage hanging bob) w) = sessionsOf alice w.
Proof.
  intros bob w.
  apply (other_sessions_untouched hanging w bob (js "7f3a") alice).
  discriminate.
Defined.

(** Under a Prediction session, the prediction handler answers a text
    that is not the cancel command with at least one call of the
    client, the first one a message to the chat. *)
Lemma handlePrediction_replies (env : Env) (w : World) (msg : Message) :
  predictionState w !! from_id msg = Some awaiting_parameters ->
  noText msg = false ->
  toLowerCase (msgText msg) <> cancelCommand ->
  exists reply rest,
    outbox (after (handlePredictionResponse env msg) w)
    = outbox w ++ SendMessage (chat_id msg) reply :: rest.
Proof.
  intros Hs Htext Hcancel.
  unfold handlePredictionResponse. rewrite Htext.
  run. rewrite Hs.
  rewrite bool_decide_eq_false_2 by exact Hcancel.
  destruct (valid _); cbn; [| eauto].
  unfold awaitPrediction.
  destruct (settled _) as [[now [result | reason]] |]; run;
    try (rewrite <- app_assoc; cbn; eauto).
  unfold storeAndReport.
  destruct (getProperty result (js "size")) as [[] |]; run;
    try (rewrite <- app_assoc; cbn; eauto).
  destruct (getProperty result (js "pdi")) as [[] |]; run;
    try (rewrite <- app_assoc; cbn; eauto).
  destruct (Experiment.create _ _ _ _ _ _). run.
  rewrite <- app_assoc; cbn; eauto.
Qed.

(** X20. One text can feed both flows: the listener calls both
    handlers on every text, so for a user who is in the Prediction flow
    and, at the same time, in [awaiting_actual_size] of the
    Result-Entry flow, a text that does not start with ["/"] and whose
    leading number is greater than 0 is answered by the Prediction flow
    and is also taken as the actual size: the Result-Entry session
    moves to [awaiting_actual_pdi] with that size, and the prompt for
    the PdI is the last message sent. *)
Theorem text_feeds_both_flows (env : Env) (w : World) (msg : Message)
    (s : AddResultSession) :
  noText msg = false ->
  startsWith (js "/") (msgText msg) = false ->
  predictionState w !! from_id msg = Some awaiting_parameters ->
  addResultState w !! from_id msg = Some s ->
  state s = awaiting_actual_size ->
  let size := parseFloat (trim (msgText msg)) in
  positive size = true ->
  let w' := after (onMessage env msg) w in
  addResultState w' !! from_id msg
  = Some {| state := awaiting_actual_pdi; experimentId := experimentId s;
            actualSize := Some size |}
  /\ exists reply rest,
       outbox w'
       = outbox w ++ SendMessage (chat_id msg) reply :: rest
         ++ [SendMessage (chat_id msg) (AskActualPdI size)].
Proof.
  intros Htext Hslash Hp Hs Hst size Hsize w'. subst w'.
  assert (toLowerCase (msgText msg) <> cancelCommand) as Hcancel.
  { intros Hc. apply cancel_starts_with_slash in Hc. congruence. }
  unfold onMessage. rewrite Htext, Hslash. cbn [negb andb].
  unfold after, mbind, M_bind.
  pose proof (handlePrediction_frame env w msg) as [Ha _].
  pose proof (handlePrediction_replies env w msg Hp Htext Hcancel)
    as (reply & rest & Hout).
  unfold after in Ha, Hout.
  destruct (handlePredictionResponse env msg w) as [[[] | ex] w1] eqn:Hrun;
    cbn in Ha, Hout.
  - unfold handleAddResultResponse. rewrite Htext.
    run. rewrite Ha, Hs, Hst.
    rewrite bool_decide_eq_false_2 by exact Hcancel.
    fold size. unfold positive in Hsize.
    rewrite <- not_non_positive in Hsize.
    apply negb_true_iff in Hsize. rewrite Hsize. cbn.
    split; [apply lookup_insert_eq |].
    exists reply, rest. rewrite Hout, <- app_assoc. reflexivity.
  - exfalso. revert Hrun. unfold handlePredictionResponse. rewrite Htext.
    run. rewrite Hp.
    destruct (bool_decide _); [discriminate |].
    destruct (valid _); cbn; [| discriminate].
    unfold awaitPrediction.
    destruct (settled _) as [[now [result | reason]] |]; run;
      try discriminate.
    unfold storeAndReport.
    destruct (getProperty result (js "size")) as [[] |]; run;
      try discriminate.
    destruct (getProperty result (js "pdi")) as [[] |]; run;
      discriminate.
Qed.

Lemma text_feeds_both_flows_witness :
  let w := after (startPrediction (message (js "/predict")))
             (entering awaiting_actual_size None) in
  let w' := after (onMessage hanging (message (js "1 1 3 2 11 500 30"))) w in
  addResultState w' !! alice
  = Some {| state := awaiting_actual_pdi; experimentId := js "7f3a";
            actualSize := Some 1%float |}
  /\ exists reply rest,
       outbox w'
       = outbox w ++ SendMessage alice reply :: rest
         ++ [SendMessage alice (AskActualPdI 1)].
Proof.
  intros w.
  apply (text_feeds_both_flows hanging w (message (js "1 1 3 2 11 500 30"))
           {| state := awaiting_actual_size; experimentId := js "7f3a";
              actualSize := None |});
    reflexivity.
Defined.

End HandlerFacts.

(** ** The simulated prediction service *)

Module SimulatedFacts.
Import JS ParameterUtils SimulatedPredictionService JSFacts.

Local Open Scope float_scope.

Lemma SFcompare_antisym (x y : spec_float) :
  SFcompare y x = option_map CompOpp (SFcompare x y).
Proof.
  destruct x as [s1 | s1 | | s1 m1 e1], y as [s2 | s2 | | s2 m2 e2];
    try reflexivity;
    try (destruct s1; reflexivity); try (destruct s2; reflexivity);
    try (destruct s1, s2; reflexivity).
  cbn. rewrite (Z.compare_antisym e1 e2).
  change (PosDef.Pos.compare_cont Eq m2 m1)
    with (Pos.compare_cont (CompOpp Eq) m2 m1).
  rewrite <- (Pos.compare_cont_antisym m1 m2 Eq).
  destruct s1, s2; try reflexivity;
    destruct (e1 ?= e2)%Z; cbn; try reflexivity.
Qed.

Lemma SFcompare_defined (x y : spec_float) :
  x <> S754_nan -> y <> S754_nan -> is_Some (SFcompare x y).
Proof.
  intros Hx Hy.
  destruct x as [s1 | s1 | | s1 m1 e1], y as [s2 | s2 | | s2 m2 e2];
    try congruence; cbn; eauto.
Qed.

Lemma isNaN_false (x : Number) : isNaN x = false -> Prim2SF x <> S754_nan.
Proof. rewrite isNaN_spec. intros H E. rewrite E in H. discriminate. Qed.

(** On Numbers, [a < b] gives [a <= b], and of two Numbers that are
    not [NaN] one is at most the other. *)
Lemma ltb_leb (a b : Number) : (a <? b) = true -> (a <=? b) = true.
Proof.
  rewrite ltb_spec, leb_spec. unfold SFltb, SFleb.
  destruct (SFcompare _ _) as [[] |]; congruence.
Qed.

Lemma not_ltb_leb (a b : Number) :
  isNaN a = false -> isNaN b = false -> (a <? b) = false -> (b <=? a) = true.
Proof.
  intros Ha Hb. rewrite ltb_spec, leb_spec. unfold SFltb, SFleb.
  rewrite (SFcompare_antisym (Prim2SF a) (Prim2SF b)).
  destruct (SFcompare_defined _ _ (isNaN_false a Ha) (isNaN_false b Hb))
    as [c ->].
  destruct c; cbn; congruence.
Qed.

Lemma Math_min_cases (a b : Number) :
  isNaN (Math_min a b) = true
  \/ (Math_min a b = a /\ (a <=? b) = true)
  \/ (Math_min a b = b /\ (b <=? a) = true).
Proof.
  unfold Math_min.
  destruct (isNaN a) eqn:Ha; [left; reflexivity |].
  destruct (isNaN b) eqn:Hb; [left; reflexivity |]. cbn [orb].
  destruct (a <? b) eqn:Hab; [right; left; auto using ltb_leb |].
  destruct (b <? a) eqn:Hba; [right; right; auto using ltb_leb |].
  destruct (isNegativeZero a);
    [right; left | right; right]; auto using not_ltb_leb.
Qed.

Lemma Math_max_cases (a b : Number) :
  isNaN (Math_max a b) = true
  \/ (Math_max a b = a /\ (b <=? a) = true)
  \/ (Math_max a b = b /\ (a <=? b) = true).
Proof.
  unfold Math_max.
  destruct (isNaN a) eqn:Ha; [left; reflexivity |].
  destruct (isNaN b) eqn:Hb; [left; reflexivity |]. cbn [orb].
  destruct (a <? b) eqn:Hab; [right; right; auto using ltb_leb |].
  destruct (b <? a) eqn:Hba; [right; left; auto using ltb_leb |].
  destruct (isNegativeZero a);
    [right; right | right; left]; auto using not_ltb_leb.
Qed.

Lemma Math_max_nan (a b : Number) :
  isNaN b = true -> isNaN (Math_max a b) = true.
Proof. intros H. unfold Math_max. rewrite H, orb_true_r. reflexivity. Qed.

(** [Math.max(lo, Math.min(hi, x))] with [lo <= hi]: [NaN], or a Number
    from [lo] to [hi]. *)
Lemma clamped (lo hi x : Number) :
  (lo <=? lo) = true -> (lo <=? hi) = true -> (hi <=? hi) = true ->
  let r := Math_max lo (Math_min hi x) in
  isNaN r = true \/ ((lo <=? r) = true /\ (r <=? hi) = true).
Proof.
  intros Hlo Hlh Hhi r. subst r.
  destruct (Math_min_cases hi x) as [Hn | [[-> Hle] | [-> Hle]]].
  - left. apply Math_max_nan, Hn.
  - destruct (Math_max_cases lo hi) as [Hn | [[-> H] | [-> H]]]; auto.
  - destruct (Math_max_cases lo x) as [Hn | [[-> H] | [-> H]]]; auto.
Qed.

(** X21. The simulated forecast is clamped: whatever the parameters,
    [Math.log] and [Math.random] are, the service returns an object
    whose [size] is [NaN] or a Number from 20 to 500, whose [pdi] is
    [NaN] or a Number from 0.05 to 0.5, and whose two confidences are
    0.85 and 0.82. *)
#[warnings="-inexact-float"]
Theorem simulated_forecast_clamped (Math_log : Number -> Number)
    (random1 random2 : Number) (parameters : ParameterRecord) :
  exists size pdi,
    makeModelPrediction Math_log random1 random2 parameters
    = JObj [(js "size", JNum size); (js "pdi", JNum pdi);
            (js "sizeConfidence", JNum 0.85);
            (js "pdiConfidence", JNum 0.82)]
    /\ (isNaN size = true \/ ((20 <=? size) = true /\ (size <=? 500) = true))
    /\ (isNaN pdi = true \/ ((0.05 <=? pdi) = true /\ (pdi <=? 0.5) = true)).
Proof.
  eexists _, _. split; [reflexivity |].
  split; apply clamped; reflexivity.
Qed.

End SimulatedFacts.

(** ** The correlation matrix *)

Module ChartFacts.
Import JS ChartUtils.

Local Open Scope float_scope.

Lemma SFmul_comm (x y : spec_float) : SFmul prec emax x y = SFmul prec emax y x.
Proof.
  destruct x as [s1 | s1 | | s1 m1 e1], y as [s2 | s2 | | s2 m2 e2]; cbn;
    rewrite ?(xorb_comm s1 s2), ?(Pos.mul_comm m1 m2), ?(Z.add_comm e1 e2);
    reflexivity.
Qed.

(** The product of two Numbers does not depend on their order. *)
Lemma mul_comm (a b : Number) : a * b = b * a.
Proof.
  apply Prim2SF_inj. rewrite !mul_spec. unfold SF64mul. apply SFmul_comm.
Qed.

Lemma sums_swap (x y : list Number) (l : list nat) : forall a b,
  fold_left (fun '(sumX, sumY) i => (sumX + element y i, sumY + element x i))
    l (b, a)
  = (let '(sumX, sumY) :=
       fold_left
         (fun '(sumX, sumY) i => (sumX + element x i, sumY + element y i))
         l (a, b) in
     (sumY, sumX)).
Proof.
  induction l as [| i l IH]; intros a b; cbn; [reflexivity |]. apply IH.
Qed.

Lemma products_swap (x y : list Number) (meanX meanY : Number) (l : list nat) :
  forall nu dx dy,
  fold_left
    (fun '(numerator, denominatorX, denominatorY) i =>
       let diffX := element y i - meanY in
       let diffY := element x i - meanX in
       (numerator + diffX * diffY,
        denominatorX + diffX * diffX,
        denominatorY + diffY * diffY))
    l (nu, dy, dx)
  = (let '(numerator, denominatorX, denominatorY) :=
       fold_left
         (fun '(numerator, denominatorX, denominatorY) i =>
            let diffX := element x i - meanX in
            let diffY := element y i - meanY in
            (numerator + diffX * diffY,
             denominatorX + diffX * diffX,
             denominatorY + diffY * diffY))
         l (nu, dx, dy) in
     (numerator, denominatorY, denominatorX)).
Proof.
  induction l as [| i l IH]; intros nu dx dy; cbn; [reflexivity |].
  rewrite (mul_comm (element y i - meanY) (element x i - meanX)). apply IH.
Qed.

Lemma pearson_swap (x y : list Number) :
  calculatePearsonCorrelation y x = calculatePearsonCorrelation x y.
Proof.
  unfold calculatePearsonCorrelation.
  rewrite (Nat.min_comm (length y) (length x)).
  destruct (_ =? _)%nat; [reflexivity |].
  rewrite sums_swap.
  destruct (fold_left _ _ (0, 0)) as [sumX sumY].
  rewrite products_swap.
  destruct (fold_left _ _ (0, 0, 0)) as [[nu dx] dy].
  rewrite (mul_comm dy dx). reflexivity.
Qed.

(** X22. The coefficient is symmetric: for any two series of Numbers,
    of any lengths, [calculatePearsonCorrelation(x, y)] and
    [calculatePearsonCorrelation(y, x)] are the same Number, rounding
    included; it is 0 when one of the series is empty. *)
Theorem pearson_symmetric (x y : list Number) :
  calculatePearsonCorrelation y x = calculatePearsonCorrelation x y
  /\ calculatePearsonCorrelation [] y = 0
  /\ calculatePearsonCorrelation x [] = 0.
Proof.
  split; [apply pearson_swap |]. split; [reflexivity |].
  rewrite pearson_swap. reflexivity.
Qed.

Lemma row_filled (f : nat -> Number) (k : nat) : forall a row j,
  (a + k <= length row)%nat ->
  fold_left (fun r j => <[j := f j]> r) (seq a k) row !! j
  = if decide (a <= j < a + k)%nat then Some (f j) else row !! j.
Proof.
  induction k as [| k IH]; intros a row j Hlen; cbn.
  - case_decide; [lia | reflexivity].
  - rewrite IH by (rewrite length_insert; lia).
    destruct (decide (j = a)) as [-> | Hne].
    + repeat case_decide; try lia.
      apply list_lookup_insert_eq. lia.
    + rewrite list_lookup_insert_ne by congruence.
      repeat case_decide; try lia; reflexivity.
Qed.

Lemma row_filled_length (f : nat -> Number) (k : nat) : forall a row,
  length (fold_left (fun r j => <[j := f j]> r) (seq a k) row) = length row.
Proof.
  induction k as [| k IH]; intros a row; cbn; [reflexivity |].
  rewrite IH. apply length_insert.
Qed.

Lemma cells_set (f : nat -> Number) (i k : nat) : forall a m row,
  m !! i = Some row ->
  fold_left (fun m j => setCell i j (f j) m) (seq a k) m
  = <[i := fold_left (fun r j => <[j := f j]> r) (seq a k) row]> m.
Proof.
  induction k as [| k IH]; intros a m row Hrow; cbn.
  - symmetry. apply list_insert_id, Hrow.
  - unfold setCell at 2. rewrite Hrow.
    rewrite (IH (S a) _ (<[a := f a]> row)).
    + apply list_insert_insert_eq.
    + apply list_lookup_insert_eq. eapply lookup_lt_Some, Hrow.
Qed.

Lemma rows_set (g : nat -> list Number -> list Number) (k : nat) :
  forall a m i,
  (a + k <= length m)%nat ->
  fold_left (fun m i => <[i := g i (default [] (m !! i))]> m) (seq a k) m !! i
  = if decide (a <= i < a + k)%nat then Some (g i (default [] (m !! i)))
    else m !! i.
Proof.
  induction k as [| k IH]; intros a m i Hlen; cbn.
  - case_decide; [lia | reflexivity].
  - rewrite IH by (rewrite length_insert; lia).
    destruct (decide (i = a)) as [-> | Hne].
    + repeat case_decide; try lia.
      apply list_lookup_insert_eq. lia.
    + rewrite list_lookup_insert_ne by congruence.
      repeat case_decide; try lia; reflexivity.
Qed.

Lemma fold_left_same {A B} (f g : A -> B -> A) (l : list B) :
  (forall a b, f a b = g a b) ->
  forall a, fold_left f l a = fold_left g l a.
Proof.
  intros H. induction l as [| b l IH]; intros a; cbn; [reflexivity |].
  rewrite H. apply IH.
Qed.

Lemma fold_left_length {A B} (f : list A -> B -> list A) (l : list B) :
  (forall m b, length (f m b) = length m) ->
  forall m, length (fold_left f l m) = length m.
Proof.
  intros H. induction l as [| b l IH]; intros m; cbn; [reflexivity |].
  rewrite IH. apply H.
Qed.

Lemma setCell_length (i j : nat) (v : Number) (m : list (list Number)) :
  length (setCell i j v m) = length m.
Proof.
  unfold setCell. destruct (m !! i); [apply length_insert | reflexivity].
Qed.

Lemma matrix_length (data : Data) :
  length (calculateCorrelationMatrix data) = length data.
Proof.
  unfold calculateCorrelationMatrix.
  rewrite fold_left_length.
  - rewrite length_replicate. apply length_map.
  - intros m i. apply fold_left_length. intros m' j.
    destruct (i =? j)%nat; apply setCell_length.
Qed.

(** The row the function builds at an index. *)
Lemma matrix_row (data : Data) (i : nat) :
  (i < length data)%nat ->
  exists row,
    calculateCorrelationMatrix data !! i = Some row
    /\ length row = length data
    /\ forall j, (j < length data)%nat ->
         row !! j
         = Some (if (i =? j)%nat then 1
                 else calculatePearsonCorrelation
                        (property data (default [] (keys data !! i)))
                        (property data (default [] (keys data !! j)))).
Proof.
  intros Hi. unfold calculateCorrelationMatrix.
  set (n := length (keys data)).
  assert (n = length data) as Hn by apply length_map.
  set (f := fun i j =>
              if (i =? j)%nat then 1
              else calculatePearsonCorrelation
                     (property data (default [] (keys data !! i)))
                     (property data (default [] (keys data !! j)))).
  set (g := fun i (row : list Number) =>
              fold_left (fun r j => <[j := f i j]> r) (seq 0 n) row).
  assert (forall l m,
            (forall i, In i l -> i < length m)%nat ->
            fold_left
              (fun m i =>
                 fold_left
                   (fun m j =>
                      if (i =? j)%nat then setCell i j 1 m
                      else setCell i j
                             (calculatePearsonCorrelation
                                (property data (default [] (keys data !! i)))
                                (property data (default [] (keys data !! j))))
                             m)
                   (seq 0 n) m) l m
            = fold_left (fun m i => <[i := g i (default [] (m !! i))]> m) l m)
    as Hfold.
  { induction l as [| a l IH]; intros m Hl; cbn; [reflexivity |].
    assert (a < length m)%nat as Ha by (apply Hl; left; reflexivity).
    destruct (lookup_lt_is_Some_2 m a Ha) as [row Hrow].
    assert (fold_left
              (fun m j =>
                 if (a =? j)%nat then setCell a j 1 m
                 else setCell a j
                        (calculatePearsonCorrelation
                           (property data (default [] (keys data !! a)))
                           (property data (default [] (keys data !! j))))
                        m)
              (seq 0 n) m
            = fold_left (fun m j => setCell a j (f a j) m) (seq 0 n) m) as ->.
    { apply fold_left_same. intros m' b. unfold f.
      destruct (a =? b)%nat; reflexivity. }
    rewrite (cells_set (f a) a n 0 m row Hrow), Hrow. cbn.
    apply IH. intros i' Hi'. rewrite length_insert. apply Hl. right. exact Hi'. }
  rewrite Hfold.
  2:{ intros i' Hi'. apply in_seq in Hi'. rewrite length_replicate. lia. }
  rewrite rows_set by (rewrite length_replicate; lia).
  rewrite decide_True by lia.
  rewrite lookup_replicate_2 by lia. cbn.
  eexists. split; [reflexivity |]. split.
  - unfold g. rewrite row_filled_length, length_replicate. exact Hn.
  - intros j Hj. unfold g.
    rewrite row_filled by (rewrite length_replicate; lia).
    rewrite decide_True by lia. reflexivity.
Qed.

(** X23. The correlation matrix is square, with one row and one column
    per series; every cell of its diagonal is 1 and it is symmetric:
    the cells [(i, j)] and [(j, i)] hold the same Number. *)
Theorem correlation_matrix_symmetric (data : Data) (i j : nat) :
  (i < length data)%nat -> (j < length data)%nat ->
  let m := calculateCorrelationMatrix data in
  length m = length data
  /\ (forall row, m !! i = Some row -> length row = length data)
  /\ exists v,
       cell m i j = Some v /\ cell m j i = Some v /\ cell m i i = Some 1.
Proof.
  intros Hi Hj m. subst m.
  destruct (matrix_row data i Hi) as (ri & Hri & Hli & Hci).
  destruct (matrix_row data j Hj) as (rj & Hrj & _ & Hcj).
  split; [apply matrix_length |]. split.
  - intros row Hrow. rewrite Hri in Hrow. injection Hrow as <-. exact Hli.
  - unfold cell. rewrite Hri, Hrj. cbn.
    rewrite (Hci j Hj), (Hci i Hi), (Hcj i Hi).
    rewrite Nat.eqb_refl, (Nat.eqb_sym j i).
    destruct (i =? j)%nat; eexists; repeat split.
    apply f_equal, pearson_swap.
Qed.

Lemma correlation_matrix_symmetric_witness :
  let data := [(js "size", [100; 120.5; 150]); (js "pdi", [0.25; 0.5; 0.125])] in
  let m := calculateCorrelationMatrix data in
  length m = 2%nat
  /\ (forall row, m !! 0%nat = Some row -> length row = 2%nat)
  /\ exists v,
       cell m 0 1 = Some v /\ cell m 1 0 = Some v /\ cell m 0 0 = Some 1.
Proof.
  intros data.
  apply (correlation_matrix_symmetric data 0 1); cbn; lia.
Defined.

End ChartFacts.
